(** * A calendar and event manager (app.py)

    The program is a Streamlit script.  Every interaction runs it from the
    top: it loads [events.json], keeps the displayed month in the session
    state, and handles at most one pressed button (previous month, next
    month, add event, delete event), saving the whole document after each
    change.  This file embeds the functions and button handlers of the
    script and proves the properties of its specification about them. *)

From Stdlib Require Import ZArith Ascii String List Lia.
From stdpp Require Import gmap strings list fin_maps.

Local Open Scope Z_scope.

(** ** Text

    A Python [str] is represented by its UTF-8 encoding, a [string] of
    bytes; a lone surrogate, which a [str] can hold and UTF-8 does not
    encode, by the three bytes that its code point would have.  The texts
    that can be written to a file opened with [encoding='utf-8'] are then
    the well-formed byte strings.  [+:+] is concatenation. *)

Module Text.

(** [s[:n]], a Python slice from the start: the whole of [s] when it is
    shorter than [n].  It is taken of dates, which are written by
    [strftime("%Y-%m-%d")] and have a byte for each character. *)
Fixpoint take (n : nat) (s : string) : string :=
  match n, s with
  | S n', String c s' => String c (take n' s')
  | _, _ => ""
  end.

(** [n] spaces. *)
Fixpoint spaces (n : nat) : string :=
  match n with
  | O => ""
  | S n' => String " " (spaces n')
  end.

(** [s.startswith(p)], returning what follows the prefix. *)
Fixpoint strip_prefix (p s : string) : option string :=
  match p, s with
  | EmptyString, _ => Some s
  | String a p', String b s' => if Ascii.eqb a b then strip_prefix p' s' else None
  | String _ _, EmptyString => None
  end.

End Text.

(** ** UTF-8

    The file is opened with [encoding='utf-8'], so reading it decodes its
    bytes and fails on a byte sequence that is not well-formed UTF-8.
    Since text is kept in its UTF-8 encoding, decoding is the identity on
    the well-formed byte strings; [valid] recognises them (Unicode 15,
    table 3-7). *)

Module Utf8.

Local Open Scope N_scope.

(** Between code points, or inside one: the next byte has to lie in
    [lo..hi] and [more] continuation bytes follow it. *)
Inductive state :=
| Start
| Tail (lo hi : N) (more : nat).

Definition step (st : state) (c : ascii) : option state :=
  let b := N_of_ascii c in
  match st with
  | Start =>
      if b <? 128 then Some Start
      else if b <? 194 then None
      else if b <? 224 then Some (Tail 128 191 0)
      else if b =? 224 then Some (Tail 160 191 1)
      else if b =? 237 then Some (Tail 128 159 1)
      else if b <? 240 then Some (Tail 128 191 1)
      else if b =? 240 then Some (Tail 144 191 2)
      else if b <? 244 then Some (Tail 128 191 2)
      else if b =? 244 then Some (Tail 128 143 2)
      else None
  | Tail lo hi more =>
      if (lo <=? b) && (b <=? hi) then
        Some match more with
             | O => Start
             | S n => Tail 128 191 n
             end
      else None
  end.

Fixpoint run (st : state) (s : string) : option state :=
  match s with
  | EmptyString => Some st
  | String c s' =>
      match step st c with
      | Some st' => run st' s'
      | None => None
      end
  end.

Definition valid (s : string) : bool :=
  match run Start s with
  | Some Start => true
  | _ => false
  end.

(** The states that [step] leads to: inside a code point only bytes from
    128 on are accepted. *)
Definition proper (st : state) : Prop :=
  match st with
  | Start => True
  | Tail lo _ _ => 128 <= lo
  end.

(** The UTF-8 bytes of the code point [u]; for a surrogate (U+D800 to
    U+DFFF) three bytes that are not well-formed. *)
Definition encode (u : N) : string :=
  if u <? 128 then String (ascii_of_N u) ""
  else if u <? 2048 then
    String (ascii_of_N (192 + u / 64)) (String (ascii_of_N (128 + u mod 64)) "")
  else if u <? 65536 then
    String (ascii_of_N (224 + u / 4096))
      (String (ascii_of_N (128 + (u / 64) mod 64))
         (String (ascii_of_N (128 + u mod 64)) ""))
  else
    String (ascii_of_N (240 + u / 262144))
      (String (ascii_of_N (128 + (u / 4096) mod 64))
         (String (ascii_of_N (128 + (u / 64) mod 64))
            (String (ascii_of_N (128 + u mod 64)) ""))).

End Utf8.

(** ** Python's [json] module

    [json.dump(events, f, ensure_ascii=False, indent=4)] and [json.load(f)]
    are modelled after the behaviour of the library: [dumps] is the text
    written with these parameters, [chunks_at] the pieces in which it is
    written, and [loads] the value read back, [None] standing for
    [json.JSONDecodeError].

    Two limits of the interpreter are not part of the reader: on a text
    nested deeper than the call stack allows [json.load] raises
    [RecursionError], and on an integer of more than 4300 digits
    [ValueError].  Neither is met on the text of a document, which is
    nested four deep and has no number, and the theorems about other
    texts are stated where neither is met. *)

Module Json.

(** The values that [json.load] returns.  A number keeps its text, which
    plays no role in this program.  The members of an object are kept in
    the order of the text. *)
#[warnings="-register-all"]
Inductive json :=
| JNull
| JBool (b : bool)
| JNum (lexeme : string)
| JStr (s : string)
| JArr (items : list json)
| JObj (members : list (string * json)).

(** *** Writing *)

Definition hex_digit (n : N) : ascii :=
  ascii_of_N (if (n <? 10)%N then 48 + n else 87 + n).

(** [ESCAPE_DCT] of the encoder: the quote, the backslash and the control
    characters are escaped; with [ensure_ascii=False] every other
    character, non-ASCII included, is written as it is. *)
Definition escape_char (c : ascii) : string :=
  if Ascii.eqb c "034" then String "\" (String "034" "")
  else if Ascii.eqb c "\" then "\\"
  else if Ascii.eqb c "008" then "\b"
  else if Ascii.eqb c "012" then "\f"
  else if Ascii.eqb c "010" then "\n"
  else if Ascii.eqb c "013" then "\r"
  else if Ascii.eqb c "009" then "\t"
  else if (N_of_ascii c <? 32)%N then
    "\u00" +:+ String (hex_digit (N_of_ascii c / 16))
                 (String (hex_digit (N_of_ascii c mod 16)) "")
  else String c "".

Fixpoint escape (s : string) : string :=
  match s with
  | EmptyString => ""
  | String c s' => escape_char c +:+ escape s'
  end.

Definition quote (s : string) : string :=
  String "034" (escape s +:+ String "034" "").

(** The texts that the encoder leaves as they are: those without a quote,
    a backslash or a control character. *)
Definition unescaped (s : string) : bool :=
  forallb (fun c => (32 <=? N_of_ascii c)%N && negb (Ascii.eqb c "034") &&
                    negb (Ascii.eqb c "\"))
    (list_ascii_of_string s).

(** A new line and the indentation of nesting level [lvl] ([indent=4]). *)
Definition newline_indent (lvl : nat) : string :=
  String "010" (Text.spaces (4 * lvl)).

(** [_iterencode] at nesting level [lvl]: an empty container is written
    as [[]] or [{}], the items of a non-empty one on a line each, separated
    by a comma, a key from its value by a colon and a space. *)
Fixpoint dumps_at (lvl : nat) (v : json) : string :=
  match v with
  | JNull => "null"
  | JBool true => "true"
  | JBool false => "false"
  | JNum lexeme => lexeme
  | JStr s => quote s
  | JArr [] => "[]"
  | JArr (x :: xs) =>
      "[" +:+ newline_indent (S lvl) +:+ dumps_at (S lvl) x +:+
      fold_right
        (fun y acc => "," +:+ newline_indent (S lvl) +:+ dumps_at (S lvl) y +:+ acc)
        (newline_indent lvl +:+ "]") xs
  | JObj [] => "{}"
  | JObj ((k, x) :: ms) =>
      "{" +:+ newline_indent (S lvl) +:+ quote k +:+ ": " +:+ dumps_at (S lvl) x +:+
      fold_right
        (fun m acc =>
           "," +:+ newline_indent (S lvl) +:+ quote (fst m) +:+ ": " +:+
           dumps_at (S lvl) (snd m) +:+ acc)
        (newline_indent lvl +:+ "}") ms
  end.

Definition dumps (v : json) : string := dumps_at 0 v.

(** The pieces in which [_iterencode] yields that text, and in which
    [json.dump] writes it, one [fp.write] each: a key and a string are a
    piece of their own; in a list a string, a constant or a number comes
    with the separator before it. *)
Fixpoint chunks_at (lvl : nat) (v : json) : list string :=
  let item (buf : string) (y : json) : list string :=
    match y with
    | JArr _ | JObj _ => buf :: chunks_at (S lvl) y
    | _ => [buf +:+ dumps_at (S lvl) y]
    end in
  match v with
  | JArr [] => ["[]"]
  | JArr (x :: xs) =>
      item ("[" +:+ newline_indent (S lvl)) x ++
      fold_right
        (fun y acc => item ("," +:+ newline_indent (S lvl)) y ++ acc)
        [newline_indent lvl; "]"] xs
  | JObj [] => ["{}"]
  | JObj ((k, x) :: ms) =>
      ["{"; newline_indent (S lvl); quote k; ": "] ++ chunks_at (S lvl) x ++
      fold_right
        (fun m acc =>
           ["," +:+ newline_indent (S lvl); quote (fst m); ": "] ++
           chunks_at (S lvl) (snd m) ++ acc)
        [newline_indent lvl; "}"] ms
  | _ => [dumps_at lvl v]
  end.

(** How deep the containers of a value are nested. *)
Fixpoint depth (v : json) : nat :=
  match v with
  | JArr l => S (fold_right (fun x n => Nat.max (depth x) n) 0%nat l)
  | JObj ms => S (fold_right (fun m n => Nat.max (depth (snd m)) n) 0%nat ms)
  | _ => 0%nat
  end.

(** The number of nodes of a value, a bound on the depth of the calls
    that read it back. *)
Fixpoint nodes (v : json) : nat :=
  match v with
  | JArr l => S (fold_right (fun x n => S (nodes x + n)) 0%nat l)
  | JObj ms => S (fold_right (fun m n => S (nodes (snd m) + n)) 0%nat ms)
  | _ => 1%nat
  end.

(** The values without numbers: strings, constants and containers. *)
Fixpoint plain (v : json) : bool :=
  match v with
  | JNum _ => false
  | JArr l => forallb plain l
  | JObj ms => forallb (fun m => plain (snd m)) ms
  | _ => true
  end.

(** Every text of the value is well-formed UTF-8. *)
Fixpoint texts_valid (v : json) : bool :=
  match v with
  | JNum t | JStr t => Utf8.valid t
  | JArr l => forallb texts_valid l
  | JObj ms => forallb (fun m => Utf8.valid (fst m) && texts_valid (snd m)) ms
  | _ => true
  end.

(** *** Reading *)

Definition is_ws (c : ascii) : bool :=
  Ascii.eqb c " " || Ascii.eqb c "009" || Ascii.eqb c "010" || Ascii.eqb c "013".

Fixpoint skip_ws (s : string) : string :=
  match s with
  | String c s' => if is_ws c then skip_ws s' else s
  | EmptyString => s
  end.

Definition hex_value (c : ascii) : option N :=
  let b := N_of_ascii c in
  if ((48 <=? b) && (b <=? 57))%N then Some (b - 48)%N
  else if ((97 <=? b) && (b <=? 102))%N then Some (b - 87)%N
  else if ((65 <=? b) && (b <=? 70))%N then Some (b - 55)%N
  else None.

Definition hex4 (a b c d : ascii) : option N :=
  match hex_value a, hex_value b, hex_value c, hex_value d with
  | Some x, Some y, Some z, Some w => Some (((x * 16 + y) * 16 + z) * 16 + w)%N
  | _, _, _, _ => None
  end.

(** The character of a one-letter escape. *)
Definition unescape (e : ascii) : option ascii :=
  if Ascii.eqb e "034" then Some "034"%char
  else if Ascii.eqb e "\" then Some "\"%char
  else if Ascii.eqb e "/" then Some "/"%char
  else if Ascii.eqb e "b" then Some "008"%char
  else if Ascii.eqb e "f" then Some "012"%char
  else if Ascii.eqb e "n" then Some "010"%char
  else if Ascii.eqb e "r" then Some "013"%char
  else if Ascii.eqb e "t" then Some "009"%char
  else None.

Definition is_high_surrogate (u : N) : bool := ((55296 <=? u) && (u <=? 56319))%N.
Definition is_low_surrogate (u : N) : bool := ((56320 <=? u) && (u <=? 57343))%N.
Definition join_surrogates (hi lo : N) : N :=
  (65536 + ((hi - 55296) * 1024 + (lo - 56320)))%N.

Definition with_prefix (p : string) (r : option (string * string)) :
  option (string * string) :=
  match r with
  | Some (t, rest) => Some (p +:+ t, rest)
  | None => None
  end.

(** [scanstring] in strict mode, from just after the opening quote: the
    contents of the string and the text after its closing quote.  A raw
    control character, an unknown escape and an end of text inside the
    string are errors.  An escaped surrogate that has no partner is kept
    (as the three bytes of its code). *)
Fixpoint scan_string (s : string) : option (string * string) :=
  match s with
  | EmptyString => None
  | String c s1 =>
      if Ascii.eqb c "034" then Some ("", s1)
      else if Ascii.eqb c "\" then
        match s1 with
        | EmptyString => None
        | String e s2 =>
            if Ascii.eqb e "u" then
              match s2 with
              | String h1 (String h2 (String h3 (String h4 s3))) =>
                  match hex4 h1 h2 h3 h4 with
                  | None => None
                  | Some u =>
                      if is_high_surrogate u then
                        match s3 with
                        | String b1 (String b2 s4) =>
                            if Ascii.eqb b1 "\" && Ascii.eqb b2 "u" then
                              match s4 with
                              | String l1 (String l2 (String l3 (String l4 s5))) =>
                                  match hex4 l1 l2 l3 l4 with
                                  | None => None
                                  | Some u2 =>
                                      if is_low_surrogate u2 then
                                        with_prefix (Utf8.encode (join_surrogates u u2))
                                          (scan_string s5)
                                      else with_prefix (Utf8.encode u) (scan_string s3)
                                  end
                              | _ => None
                              end
                            else with_prefix (Utf8.encode u) (scan_string s3)
                        | _ => with_prefix (Utf8.encode u) (scan_string s3)
                        end
                      else with_prefix (Utf8.encode u) (scan_string s3)
                  end
              | _ => None
              end
            else
              match unescape e with
              | Some c' => with_prefix (String c' "") (scan_string s2)
              | None => None
              end
        end
      else if (N_of_ascii c <? 32)%N then None
      else with_prefix (String c "") (scan_string s1)
  end.

Definition is_digit (c : ascii) : bool :=
  ((48 <=? N_of_ascii c) && (N_of_ascii c <=? 57))%N.

(** The longest run of digits at the start of [s], and what follows. *)
Fixpoint scan_digits (s : string) : string * string :=
  match s with
  | String c s' =>
      if is_digit c then
        let (ds, rest) := scan_digits s' in (String c ds, rest)
      else ("", s)
  | EmptyString => ("", s)
  end.

(** An optional part of a number: [mark], then at least one digit. *)
Definition scan_digits1 (s : string) : option (string * string) :=
  match scan_digits s with
  | (EmptyString, _) => None
  | (ds, rest) => Some (ds, rest)
  end.

Definition scan_fraction (s : string) : string * string :=
  match s with
  | String c s' =>
      if Ascii.eqb c "." then
        match scan_digits1 s' with
        | Some (ds, rest) => (String c ds, rest)
        | None => ("", s)
        end
      else ("", s)
  | EmptyString => ("", s)
  end.

Definition scan_exponent (s : string) : string * string :=
  match s with
  | String c s' =>
      if Ascii.eqb c "e" || Ascii.eqb c "E" then
        match s' with
        | String g s'' =>
            if Ascii.eqb g "+" || Ascii.eqb g "-" then
              match scan_digits1 s'' with
              | Some (ds, rest) => (String c (String g ds), rest)
              | None => ("", s)
              end
            else
              match scan_digits1 s' with
              | Some (ds, rest) => (String c ds, rest)
              | None => ("", s)
              end
        | EmptyString => ("", s)
        end
      else ("", s)
  | EmptyString => ("", s)
  end.

(** [NUMBER_RE]: an optional minus, [0] or a run of digits that does not
    start with [0], an optional fraction, an optional exponent. *)
Definition scan_number (s : string) : option (string * string) :=
  let (sign, s0) :=
    match s with
    | String c s' => if Ascii.eqb c "-" then ("-", s') else ("", s)
    | EmptyString => ("", s)
    end in
  match s0 with
  | String d s1 =>
      if is_digit d then
        let (int_part, s2) :=
          if Ascii.eqb d "0" then ("0", s1)
          else let (ds, rest) := scan_digits s1 in (String d ds, rest) in
        let (frac, s3) := scan_fraction s2 in
        let (exp, s4) := scan_exponent s3 in
        Some (sign +:+ int_part +:+ frac +:+ exp, s4)
      else None
  | EmptyString => None
  end.

(** The constants, tried as [scan_once] tries them around the numbers. *)
Definition scan_constant (s : string) : option (json * string) :=
  match Text.strip_prefix "null" s with
  | Some r => Some (JNull, r)
  | None =>
  match Text.strip_prefix "true" s with
  | Some r => Some (JBool true, r)
  | None =>
  match Text.strip_prefix "false" s with
  | Some r => Some (JBool false, r)
  | None =>
  match scan_number s with
  | Some (n, r) => Some (JNum n, r)
  | None =>
  match Text.strip_prefix "NaN" s with
  | Some r => Some (JNum "NaN", r)
  | None =>
  match Text.strip_prefix "Infinity" s with
  | Some r => Some (JNum "Infinity", r)
  | None =>
  match Text.strip_prefix "-Infinity" s with
  | Some r => Some (JNum "-Infinity", r)
  | None => None
  end end end end end end end.

(** [scan_once], [JSONArray] and [JSONObject].  The library recurses on
    the nesting of the text (its recursion limit is left out); here [fuel]
    bounds the recursion, and every call consumes a character, so the
    length of the text is enough. *)
Fixpoint scan_value (fuel : nat) (s : string) : option (json * string) :=
  match fuel with
  | O => None
  | S fuel' =>
      match s with
      | String c s' =>
          if Ascii.eqb c "034" then
            match scan_string s' with
            | Some (t, r) => Some (JStr t, r)
            | None => None
            end
          else if Ascii.eqb c "{" then
            match skip_ws s' with
            | String c1 r1 =>
                if Ascii.eqb c1 "}" then Some (JObj [], r1)
                else
                  match scan_members fuel' (String c1 r1) with
                  | Some (ms, r) => Some (JObj ms, r)
                  | None => None
                  end
            | EmptyString => None
            end
          else if Ascii.eqb c "[" then
            match skip_ws s' with
            | String c1 r1 =>
                if Ascii.eqb c1 "]" then Some (JArr [], r1)
                else
                  match scan_items fuel' (String c1 r1) with
                  | Some (xs, r) => Some (JArr xs, r)
                  | None => None
                  end
            | EmptyString => None
            end
          else scan_constant s
      | EmptyString => None
      end
  end
with scan_items (fuel : nat) (s : string) : option (list json * string) :=
  match fuel with
  | O => None
  | S fuel' =>
      match scan_value fuel' s with
      | Some (x, r) =>
          match skip_ws r with
          | String c r1 =>
              if Ascii.eqb c "]" then Some ([x], r1)
              else if Ascii.eqb c "," then
                match scan_items fuel' (skip_ws r1) with
                | Some (xs, r2) => Some (x :: xs, r2)
                | None => None
                end
              else None
          | EmptyString => None
          end
      | None => None
      end
  end
with scan_members (fuel : nat) (s : string) : option (list (string * json) * string) :=
  match fuel with
  | O => None
  | S fuel' =>
      match s with
      | String q s' =>
          if Ascii.eqb q "034" then
            match scan_string s' with
            | Some (k, r) =>
                match skip_ws r with
                | String c r1 =>
                    if Ascii.eqb c ":" then
                      match scan_value fuel' (skip_ws r1) with
                      | Some (x, r2) =>
                          match skip_ws r2 with
                          | String d r3 =>
                              if Ascii.eqb d "}" then Some ([(k, x)], r3)
                              else if Ascii.eqb d "," then
                                match scan_members fuel' (skip_ws r3) with
                                | Some (ms, r4) => Some ((k, x) :: ms, r4)
                                | None => None
                                end
                              else None
                          | EmptyString => None
                          end
                      | None => None
                      end
                    else None
                | EmptyString => None
                end
            | None => None
            end
          else None
      | EmptyString => None
      end
  end.

(** The texts that start as a written value starts: with a character
    that is no white space and closes no container. *)
Definition starts_value (s : string) : Prop :=
  exists c r, s = String c r /\ is_ws c = false /\
              Ascii.eqb c "]" = false /\ Ascii.eqb c "}" = false.

(** A scan at fuel [f] is free of its fuel: what it leaves is shorter than
    what it was given, and every fuel from the difference on gives the
    same result. *)
Definition fuel_free {A} (scan : nat -> string -> option (A * string)) (f : nat) : Prop :=
  forall s a r, scan f s = Some (a, r) ->
    (String.length r < String.length s)%nat /\
    forall f', (String.length s - String.length r <= f')%nat -> scan f' s = Some (a, r).

(** [json.loads]: white space, one value, white space, the end. *)
Definition loads (s : string) : option json :=
  match scan_value (S (String.length s)) (skip_ws s) with
  | Some (v, r) =>
      match skip_ws r with
      | EmptyString => Some v
      | String _ _ => None
      end
  | None => None
  end.

End Json.

(** ** The calendar navigator (lines 49-74) *)

Module Navigator.

(** The two entries of [st.session_state] that the month buttons touch.
    Python integers are unbounded, hence [Z]. *)
Record cursor := Cursor { current_year : Z; current_month : Z }.

(** Lines 59-62, the body of the "prev_month" button. *)
Definition prev_month (c : cursor) : cursor :=
  let m := current_month c - 1 in
  if m <? 1 then Cursor (current_year c - 1) 12
  else Cursor (current_year c) m.

(** Lines 70-73, the body of the "next_month" button. *)
Definition next_month (c : cursor) : cursor :=
  let m := current_month c + 1 in
  if 12 <? m then Cursor (current_year c + 1) 1
  else Cursor (current_year c) m.

Inductive move := Prev | Next.

Definition step (c : cursor) (mv : move) : cursor :=
  match mv with
  | Prev => prev_month c
  | Next => next_month c
  end.

(** A finite sequence of button presses, one script run each. *)
Definition run (c : cursor) (mvs : list move) : cursor :=
  fold_left step mvs c.

Definition month_ok (c : cursor) : Prop := 1 <= current_month c <= 12.

(** The months from the start of year 0 up to the displayed month, and
    what a sequence of presses adds to them. *)
Definition months (c : cursor) : Z := 12 * current_year c + current_month c.

Definition offset (mvs : list move) : Z :=
  fold_right (fun mv z => match mv with Prev => z - 1 | Next => z + 1 end) 0 mvs.

End Navigator.

(** ** The event store and its handlers *)

Module Store.

Import Json.

(** An entry of a date's list: the dict built on lines 139-143. *)
Record event := Event { title : string; description : string; timestamp : string }.

(** The document [events]: a dict from "YYYY-MM" to a dict from
    "YYYY-MM-DD" to the list of the day's events.  Python compares dicts
    whatever the order of their keys, so a dict is a finite map. *)
Abbreviation month := (gmap string (list event)).
Abbreviation document := (gmap string (gmap string (list event))).

(** *** The document as a JSON value *)

Definition event_to_json (e : event) : json :=
  JObj [("title", JStr (title e));
        ("description", JStr (description e));
        ("timestamp", JStr (timestamp e))].

Definition day_to_json (l : list event) : json := JArr (map event_to_json l).

(** [json.dump] writes the members of a dict in the order of insertion,
    which a finite map does not record: they are written in the order in
    which the map enumerates them.  For a document with several months or
    dates the text can so differ from the file in the order of its
    members; what is read back from either is the same document. *)
Definition month_to_json (m : month) : json :=
  JObj (map (fun p => (p.1, day_to_json p.2)) (map_to_list m)).

Definition to_json (d : document) : json :=
  JObj (map (fun p => (p.1, month_to_json p.2)) (map_to_list d)).

(** The dict that the members of an object denote: of two members with
    the same key the later one counts. *)
Definition dict_of {A} (ms : list (string * A)) : gmap string A :=
  list_to_map (reverse ms).

Definition as_text (v : json) : option string :=
  match v with
  | JStr s => Some s
  | _ => None
  end.

Definition as_event (v : json) : option event :=
  match v with
  | JObj ms =>
      let d := dict_of ms in
      if bool_decide (size d = 3%nat) then
        t ← d !! "title" ≫= as_text;
        ds ← d !! "description" ≫= as_text;
        ts ← d !! "timestamp" ≫= as_text;
        Some (Event t ds ts)
      else None
  | _ => None
  end.

Definition as_day (v : json) : option (list event) :=
  match v with
  | JArr xs => mapM as_event xs
  | _ => None
  end.

Definition as_month (v : json) : option month :=
  match v with
  | JObj ms => dict_of <$> mapM (fun p => pair p.1 <$> as_day p.2) ms
  | _ => None
  end.

(** The document that a loaded value is, when it has the shape of one. *)
Definition as_document (v : json) : option document :=
  match v with
  | JObj ms => dict_of <$> mapM (fun p => pair p.1 <$> as_month p.2) ms
  | _ => None
  end.

(** *** The state of a run *)

(** What [st.error], [st.warning], [st.success] and [st.info] show. *)
Inductive message :=
| Error (text : string)
| Warning (text : string)
| Success (text : string)
| Info (text : string).

Inductive exn :=
| FileNotFoundError
| UnicodeDecodeError
| UnicodeEncodeError
| JSONDecodeError
| KeyError
| IndexError
| ValueError
| RerunException.

#[global] Instance exn_eq_dec : EqDecision exn.
Proof. solve_decision. Defined.

(** [events] is the module-level dict that the handlers mutate; [file] is
    [events.json], absent or with its bytes, and [writes] counts how often
    it was opened for writing; [clock] is the time; [shown] are the
    messages on the page, the latest first. *)
Record state := State {
  events : document;
  file : option string;
  writes : nat;
  clock : nat;
  shown : list message
}.

Inductive outcome (A : Type) :=
| Ret (a : A)
| Raise (e : exn).
Arguments Ret {A} a.
Arguments Raise {A} e.

(** A piece of the script: it runs on a state and returns or raises. *)
Definition M (A : Type) : Type := state -> outcome A * state.

#[global] Instance M_ret : MRet M := fun A a s => (Ret a, s).

#[global] Instance M_bind : MBind M := fun A B k c s =>
  match c s with
  | (Ret a, s') => k a s'
  | (Raise e, s') => (Raise e, s')
  end.

Definition raise {A} (e : exn) : M A := fun s => (Raise e, s).

(** [try: c except e: h] *)
Definition try_except {A} (c : M A) (e : exn) (h : M A) : M A := fun s =>
  match c s with
  | (Raise e', s') => if bool_decide (e' = e) then h s' else (Raise e', s')
  | r => r
  end.

Definition get_events : M document := fun s => (Ret (events s), s).

Definition set_events (d : document) : M unit := fun s =>
  (Ret tt, State d (file s) (writes s) (clock s) (shown s)).

Definition show (m : message) : M unit := fun s =>
  (Ret tt, State (events s) (file s) (writes s) (clock s) (m :: shown s)).

(** [st.rerun()] ends the run by raising. *)
Definition st_rerun : M unit := raise RerunException.

(** [os.path.exists(DATA_FILE)] *)
Definition os_path_exists : M bool := fun s =>
  (Ret match file s with Some _ => true | None => false end, s).

(** [open(DATA_FILE, 'r', encoding='utf-8')] and [f.read()]: the text of
    the file, when its bytes decode. *)
Definition read_text : M string := fun s =>
  match file s with
  | None => (Raise FileNotFoundError, s)
  | Some bytes =>
      if Utf8.valid bytes then (Ret bytes, s) else (Raise UnicodeDecodeError, s)
  end.

(** What [f.write] brings to the file of a sequence of pieces: a piece
    is encoded when it is written, and one that UTF-8 cannot encode (it
    has a lone surrogate) raises [UnicodeEncodeError]; the pieces before
    it are in the file when it is closed. *)
Fixpoint written (chunks : list string) : string * bool :=
  match chunks with
  | [] => ("", true)
  | c :: cs =>
      if Utf8.valid c then
        let (text, ok) := written cs in (c +:+ text, ok)
      else ("", false)
  end.

(** [open(DATA_FILE, 'w', encoding='utf-8')], which empties the file, and
    the writes of [json.dump(v, f, ensure_ascii=False, indent=4)]. *)
Definition json_dump (v : json) : M unit := fun s =>
  let (text, ok) := written (chunks_at 0 v) in
  (if ok then Ret tt else Raise UnicodeEncodeError,
   State (events s) (Some text) (S (writes s)) (clock s) (shown s)).

(** [datetime.now()]: the time now; time passes. *)
Definition datetime_now : M nat := fun s =>
  (Ret (clock s), State (events s) (file s) (writes s) (S (clock s)) (shown s)).

(** [d[k]] *)
Definition getitem {V} (d : gmap string V) (k : string) : M V :=
  match d !! k with
  | Some v => mret v
  | None => raise KeyError
  end.

(** [json.load(f)] *)
Definition json_load : M json :=
  text ← read_text;
  match loads text with
  | Some v => mret v
  | None => raise JSONDecodeError
  end.

(** Lines 12-24. *)
Definition load_events : M json :=
  present ← os_path_exists;
  if negb present then mret (JObj [])
  else
    try_except json_load JSONDecodeError
      (show (Error "イベントファイルが破損しています。空のデータで開始します。");;
       mret (JObj [])).

(** Lines 27-30. *)
Definition save_events (d : document) : M unit :=
  json_dump (to_json d).

(** The widgets that can be pressed; the script tells them apart by
    their keys "prev_month", "next_month", "add_event_button_<date>" and
    "delete_event_<date>_<i>". *)
Inductive button :=
| PrevMonth
| NextMonth
| AddEvent (date : string)
| DeleteEvent (date : string) (i : nat).

#[global] Instance button_eq_dec : EqDecision button.
Proof. solve_decision. Defined.

(** [st.button(label, key=k)] is true in the run that the press of the
    button with key [k] started. *)
Definition st_button (pressed : option button) (k : button) : bool :=
  bool_decide (pressed = Some k).

(** Lines 156-157 and the two "no events" branches: the events shown for
    a date. *)
Definition list_events (d : document) (date : string) : list event :=
  match d !! Text.take 7 date with
  | Some m =>
      match m !! date with
      | Some daily_events => daily_events
      | None => []
      end
  | None => []
  end.

Section Handlers.

(** [datetime.isoformat] of a time, and [datetime.fromisoformat], which
    raises [ValueError] on a text that it does not read. *)
Variable isoformat : nat -> string.
Variable fromisoformat : string -> option nat.

(** Lines 129-148, the body of the "add event" button for the selected
    date and the contents of the two input fields. *)
Definition add_event_pressed (date event_title event_description : string) : M unit :=
  let selected_year_month := Text.take 7 date in
  match event_title with
  | String _ _ =>
      ev ← get_events;
      match ev !! selected_year_month with
      | None => set_events (<[selected_year_month := ∅]> ev)
      | Some _ => mret tt
      end;;
      ev ← get_events;
      m ← getitem ev selected_year_month;
      match m !! date with
      | None => set_events (<[selected_year_month := <[date := []]> m]> ev)
      | Some _ => mret tt
      end;;
      ev ← get_events;
      m ← getitem ev selected_year_month;
      daily_events ← getitem m date;
      now ← datetime_now;
      set_events
        (<[selected_year_month :=
             <[date := daily_events ++ [Event event_title event_description (isoformat now)]]> m]>
           ev);;
      ev ← get_events;
      save_events ev;;
      show (Success "イベントを追加しました！");;
      st_rerun
  | EmptyString => show (Warning "イベントタイトルは必須です。")
  end.

(** Lines 171-183, the body of the delete button of the event at
    position [i]. *)
Definition delete_event_pressed (date : string) (i : nat) : M unit :=
  let selected_year_month := Text.take 7 date in
  ev ← get_events;
  m ← getitem ev selected_year_month;
  daily_events ← getitem m date;
  (if bool_decide (i < length daily_events)%nat
   then set_events (<[selected_year_month := <[date := delete i daily_events]> m]> ev)
   else raise IndexError);;
  ev ← get_events;
  m ← getitem ev selected_year_month;
  daily_events ← getitem m date;
  match daily_events with
  | [] => set_events (<[selected_year_month := delete date m]> ev)
  | _ :: _ => mret tt
  end;;
  ev ← get_events;
  m ← getitem ev selected_year_month;
  (if bool_decide (m = ∅) then set_events (delete selected_year_month ev) else mret tt);;
  ev ← get_events;
  save_events ev;;
  show (Success "イベントを削除しました。");;
  st_rerun.

(** Lines 161-183, the loop over [enumerate(daily_events)] from position
    [i] on: each event is displayed, which reads its timestamp, and has a
    delete button of its own. *)
Fixpoint show_events (pressed : option button) (date : string) (i : nat)
    (pending : list event) : M unit :=
  match pending with
  | [] => mret tt
  | e :: rest =>
      match fromisoformat (timestamp e) with
      | None => raise ValueError
      | Some _ =>
          if st_button pressed (DeleteEvent date i)
          then delete_event_pressed date i
          else show_events pressed date (S i) rest
      end
  end.

(** Lines 156-187, the list of the selected date. *)
Definition event_list (pressed : option button) (date : string) : M unit :=
  let selected_year_month := Text.take 7 date in
  ev ← get_events;
  match ev !! selected_year_month with
  | Some m =>
      match m !! date with
      | Some daily_events =>
          match daily_events with
          | _ :: _ => show_events pressed date 0 daily_events
          | [] => show (Info "この日付にはイベントがありません。")
          end
      | None => show (Info "この日付にはイベントがありません。")
      end
  | None => show (Info "この日付にはイベントがありません。")
  end.

(** Lines 116-189, the right column of the page in one run: the form and
    the list of the selected date, when there is one. *)
Definition event_column (pressed : option button)
    (date event_title event_description : string) : M unit :=
  match date with
  | String _ _ =>
      (if st_button pressed (AddEvent date)
       then add_event_pressed date event_title event_description
       else mret tt);;
      event_list pressed date
  | EmptyString => show (Info "カレンダーから日付を選択してください。")
  end.

(** The states that a sequence of runs of the column leads to, whatever
    is pressed and entered in each. *)
Inductive produced (s : state) : state -> Prop :=
| produced_start : produced s s
| produced_run s1 pressed date event_title event_description o s2 :
    produced s s1 ->
    event_column pressed date event_title event_description s1 = (o, s2) ->
    produced s s2.

End Handlers.

(** The end of both handlers once the document is changed (lines 144-146
    and 181-183): save it, show the message, rerun. *)
Definition finish (msg : message) : M unit :=
  ev ← get_events;
  save_events ev;;
  show msg;;
  st_rerun.

(** *** The selected date (lines 94-103, 118) *)

Definition digit (n : Z) : ascii := ascii_of_N (Z.to_N (48 + n mod 10)).

(** [selected_date.strftime("%Y-%m-%d")] for the date of year [y], month
    [m] and day [d]: the year in four digits (the date input admits the
    years 1900 to 2100), the month and the day in two. *)
Definition selected_date_str (y m d : Z) : string :=
  String (digit (y / 1000)) (String (digit (y / 100)) (String (digit (y / 10))
    (String (digit y)
  (String "-" (String (digit (m / 10)) (String (digit m)
  (String "-" (String (digit (d / 10)) (String (digit d) ""))))))))).

(** [selected_date_str[:7]] *)
Definition selected_year_month (y m d : Z) : string :=
  Text.take 7 (selected_date_str y m d).

(** The dates that the date input returns. *)
Definition in_calendar (y m d : Z) : Prop :=
  1900 <= y <= 2100 /\ 1 <= m <= 12 /\ 1 <= d <= 31.

(** No empty container: every month has a date and every date an event. *)
Definition pruned (d : document) : Prop :=
  forall ym (m : month), d !! ym = Some m ->
    m <> ∅ /\ forall date l, m !! date = Some l -> l <> [].

(** Every text of the document is well-formed UTF-8, as every [str] that
    can be written to the file is. *)
Definition event_wf (e : event) : bool :=
  Utf8.valid (title e) && Utf8.valid (description e) && Utf8.valid (timestamp e).

Definition month_wf (m : month) : bool :=
  forallb (fun p => Utf8.valid p.1 && forallb event_wf p.2) (map_to_list m).

Definition document_wf (d : document) : bool :=
  forallb (fun p => Utf8.valid p.1 && month_wf p.2) (map_to_list d).

End Store.

(** ** A sample session

    A clock that counts the seconds of 15 March 2024, and a document with
    one event. *)

Module Sample.

Definition two_digits (n : nat) : string :=
  String (ascii_of_nat (48 + n / 10 mod 10)) (String (ascii_of_nat (48 + n mod 10)) "").

Definition isoformat (n : nat) : string :=
  "2024-03-15T" +:+ two_digits (n / 3600) +:+ ":" +:+ two_digits (n / 60 mod 60) +:+
  ":" +:+ two_digits (n mod 60).

Definition fromisoformat (ts : string) : option nat :=
  match Text.strip_prefix "2024-03-15T" ts with
  | Some hms => if bool_decide (String.length hms = 8%nat) then Some 0%nat else None
  | None => None
  end.

Definition meeting : Store.event :=
  Store.Event "会議" "朝のスタンドアップ" "2024-03-15T00:15:00".

Definition one_meeting : Store.document :=
  {[ "2024-03" := {[ "2024-03-15" := [meeting] ]} ]}.

(** A fresh start at a quarter past midnight, without a file. *)
Definition fresh : Store.state := Store.State ∅ None 0 900 [].

(** The state with the meeting in the document and in the file. *)
Definition with_meeting : Store.state :=
  Store.State one_meeting (Some (Json.dumps (Store.to_json one_meeting))) 1 901 [].

(** A document with a title that is a lone surrogate, U+D800, and a file
    of ASCII text in which that title is written as an escape. *)
Definition unpaired : Store.document :=
  {[ "2024-03" := {[ "2024-03-15" :=
       [Store.Event (String "237" (String "160" (String "128" ""))) "メモ"
          "2024-03-15T00:15:00"] ]} ]}.

Definition quoted (s : string) : string := String "034" (s +:+ String "034" "").

Definition escaped_file : string :=
  "{" +:+ quoted "2024-03" +:+ ": {" +:+ quoted "2024-03-15" +:+ ": [{" +:+
  quoted "title" +:+ ": " +:+ quoted "\ud800" +:+ ", " +:+
  quoted "description" +:+ ": " +:+ quoted "\u30e1\u30e2" +:+ ", " +:+
  quoted "timestamp" +:+ ": " +:+ quoted "2024-03-15T00:15:00" +:+ "}]}}".

(** A state whose only event has a timestamp that the clock does not
    read. *)
Definition undated : Store.state :=
  Store.State {[ "2024-03" := {[ "2024-03-15" := [Store.Event "会議" "" "きのう"] ]} ]}
    None 0 900 [].

End Sample.

#[global] Arguments Text.take : simpl never.
#[global] Arguments Utf8.valid : simpl never.
#[global] Arguments Json.loads : simpl never.
#[global] Arguments Json.quote : simpl never.
#[global] Arguments Json.newline_indent : simpl never.
#[global] Arguments Json.dumps : simpl never.
#[global] Arguments Store.to_json : simpl never.
#[global] Arguments Store.save_events : simpl never.

(* ================================================================== *)
(** * Properties *)

(** ** Text *)

Lemma text_app_nil_l (t : string) : "" +:+ t = t.
Proof. reflexivity. Qed.

Lemma text_app_cons (c : ascii) (s t : string) :
  String c s +:+ t = String c (s +:+ t).
Proof. reflexivity. Qed.

Lemma text_app_nil_r (s : string) : s +:+ "" = s.
Proof.
  induction s as [|c s IH]; [reflexivity|].
  rewrite text_app_cons, IH. reflexivity.
Qed.

Lemma text_app_assoc (s t u : string) : (s +:+ t) +:+ u = s +:+ (t +:+ u).
Proof.
  induction s as [|c s IH]; [reflexivity|].
  rewrite !text_app_cons, IH. reflexivity.
Qed.

Lemma text_length_app (s t : string) :
  String.length (s +:+ t) = (String.length s + String.length t)%nat.
Proof.
  induction s as [|c s IH]; [reflexivity|].
  rewrite text_app_cons. simpl. rewrite IH. reflexivity.
Qed.

(** ** The navigator *)

Lemma prev_month_ok c : Navigator.month_ok c -> Navigator.month_ok (Navigator.prev_month c).
Proof.
  unfold Navigator.month_ok, Navigator.prev_month. intros H.
  destruct (Z.ltb_spec (Navigator.current_month c - 1) 1); simpl; lia.
Qed.

Lemma next_month_ok c : Navigator.month_ok c -> Navigator.month_ok (Navigator.next_month c).
Proof.
  unfold Navigator.month_ok, Navigator.next_month. intros H.
  destruct (Z.ltb_spec 12 (Navigator.current_month c + 1)); simpl; lia.
Qed.

Lemma step_ok c mv : Navigator.month_ok c -> Navigator.month_ok (Navigator.step c mv).
Proof. destruct mv; [apply prev_month_ok | apply next_month_ok]. Qed.


(** C7: from January the previous month is December of the year before,
    from December the next month is January of the year after, and for
    every other month of 1..12 the month moves by one and the year stays. *)
Theorem C7_month_wrap (y m : Z) :
  Navigator.prev_month (Navigator.Cursor y 1) = Navigator.Cursor (y - 1) 12 /\
  Navigator.next_month (Navigator.Cursor y 12) = Navigator.Cursor (y + 1) 1 /\
  (1 <= m <= 12 -> m <> 1 ->
   Navigator.prev_month (Navigator.Cursor y m) = Navigator.Cursor y (m - 1)) /\
  (1 <= m <= 12 -> m <> 12 ->
   Navigator.next_month (Navigator.Cursor y m) = Navigator.Cursor y (m + 1)).
Proof.
  unfold Navigator.prev_month, Navigator.next_month; simpl.
  repeat split.
  - intros Hm H1. destruct (Z.ltb_spec (m - 1) 1); [lia | reflexivity].
  - intros Hm H12. destruct (Z.ltb_spec 12 (m + 1)); [lia | reflexivity].
Qed.

(** C9: a displayed month in 1..12 stays in 1..12 under every finite
    sequence of previous-month and next-month presses. *)
Theorem C9_month_range_preserved (c : Navigator.cursor) (mvs : list Navigator.move) :
  Navigator.month_ok c -> Navigator.month_ok (Navigator.run c mvs).
Proof.
  unfold Navigator.run. revert c.
  induction mvs as [|mv mvs IH]; intros c Hc; simpl.
  - exact Hc.
  - apply IH, step_ok, Hc.
Qed.

Lemma C9_month_range_preserved_witness :
  Navigator.month_ok
    (Navigator.run (Navigator.Cursor 2024 1)
       (Navigator.Prev :: Navigator.Next :: Navigator.Next :: nil)).
Proof.
  apply (C9_month_range_preserved (Navigator.Cursor 2024 1)).
  unfold Navigator.month_ok; simpl; lia.
Defined.


(** ** Running the handlers *)

Ltac run_script :=
  repeat progress
    (unfold mbind, mret, Store.M_bind, Store.M_ret, Store.raise, Store.try_except,
       Store.get_events, Store.set_events, Store.show, Store.st_rerun,
       Store.os_path_exists, Store.read_text,
       Store.datetime_now, Store.getitem, Store.json_load;
     simpl).

Lemma load_events_absent s :
  Store.file s = None -> Store.load_events s = (Store.Ret (Json.JObj []), s).
Proof.
  destruct s as [ev f w c sh]; simpl. intros ->. reflexivity.
Qed.

Lemma load_events_undecodable s bytes :
  Store.file s = Some bytes -> Utf8.valid bytes = false ->
  Store.load_events s = (Store.Raise Store.UnicodeDecodeError, s).
Proof.
  destruct s as [ev f w c sh]; simpl. intros -> Hv.
  unfold Store.load_events. run_script. rewrite Hv. reflexivity.
Qed.

Lemma load_events_parsed s bytes v :
  Store.file s = Some bytes -> Utf8.valid bytes = true ->
  Json.loads bytes = Some v ->
  Store.load_events s = (Store.Ret v, s).
Proof.
  destruct s as [ev f w c sh]; simpl. intros -> Hv Hl.
  unfold Store.load_events. run_script. rewrite Hv. run_script. rewrite Hl. reflexivity.
Qed.

Lemma load_events_malformed s bytes :
  Store.file s = Some bytes -> Utf8.valid bytes = true ->
  Json.loads bytes = None ->
  Store.load_events s =
  (Store.Ret (Json.JObj []),
   Store.State (Store.events s) (Store.file s) (Store.writes s) (Store.clock s)
     (Store.Error "イベントファイルが破損しています。空のデータで開始します。" :: Store.shown s)).
Proof.
  destruct s as [ev f w c sh]; simpl. intros -> Hv Hl.
  unfold Store.load_events. run_script. rewrite Hv. run_script. rewrite Hl. reflexivity.
Qed.

Section HandlerFacts.

Variable isoformat : nat -> string.
Variable fromisoformat : string -> option nat.

(** What saving does to the state, whether it succeeds or not. *)
Lemma save_events_state (d : Store.document) (s : Store.state) :
  Store.events (Store.save_events d s).2 = Store.events s /\
  Store.writes (Store.save_events d s).2 = S (Store.writes s) /\
  Store.clock (Store.save_events d s).2 = Store.clock s /\
  Store.shown (Store.save_events d s).2 = Store.shown s /\
  ((Store.save_events d s).1 = Store.Ret tt \/
   (Store.save_events d s).1 = Store.Raise Store.UnicodeEncodeError).
Proof.
  unfold Store.save_events, Store.json_dump.
  destruct (Store.written _) as [text [|]]; simpl; auto 10.
Qed.

Lemma finish_run (msg : Store.message) (s : Store.state) :
  Store.finish msg s =
  match Store.save_events (Store.events s) s with
  | (Store.Ret _, s1) =>
      (Store.Raise Store.RerunException,
       Store.State (Store.events s1) (Store.file s1) (Store.writes s1) (Store.clock s1)
         (msg :: Store.shown s1))
  | (Store.Raise e, s1) => (Store.Raise e, s1)
  end.
Proof.
  unfold Store.finish. run_script.
  destruct (Store.save_events (Store.events s) s) as [[[]|e] s1]; reflexivity.
Qed.

Lemma finish_events (msg : Store.message) (s : Store.state) :
  Store.events (Store.finish msg s).2 = Store.events s.
Proof.
  rewrite finish_run. destruct (save_events_state (Store.events s) s) as (He & _).
  destruct (Store.save_events (Store.events s) s) as [[[]|e] s1]; exact He.
Qed.

Lemma finish_clock (msg : Store.message) (s : Store.state) :
  Store.clock (Store.finish msg s).2 = Store.clock s.
Proof.
  rewrite finish_run. destruct (save_events_state (Store.events s) s) as (_ & _ & Hc & _).
  destruct (Store.save_events (Store.events s) s) as [[[]|e] s1]; exact Hc.
Qed.

Lemma finish_writes (msg : Store.message) (s : Store.state) :
  Store.writes (Store.finish msg s).2 = S (Store.writes s).
Proof.
  rewrite finish_run. destruct (save_events_state (Store.events s) s) as (_ & Hw & _).
  destruct (Store.save_events (Store.events s) s) as [[[]|e] s1]; exact Hw.
Qed.

Lemma finish_raises (msg : Store.message) (s : Store.state) :
  (Store.finish msg s).1 = Store.Raise Store.RerunException \/
  (Store.finish msg s).1 = Store.Raise Store.UnicodeEncodeError.
Proof.
  rewrite finish_run.
  destruct (save_events_state (Store.events s) s) as (_ & _ & _ & _ & Ho).
  destruct (Store.save_events (Store.events s) s) as [[[]|e] s1]; simpl in *.
  - left. reflexivity.
  - right. destruct Ho as [Ho|Ho]; congruence.
Qed.

Lemma add_event_pressed_run date t ds s :
  t <> "" ->
  let ym := Text.take 7 date in
  let m0 := default ∅ (Store.events s !! ym) in
  let l0 := default [] (m0 !! date) in
  let d' := <[ym := <[date := l0 ++ [Store.Event t ds (isoformat (Store.clock s))]]> m0]>
              (Store.events s) in
  Store.add_event_pressed isoformat date t ds s =
  Store.finish (Store.Success "イベントを追加しました！")
    (Store.State d' (Store.file s) (Store.writes s) (S (Store.clock s)) (Store.shown s)).
Proof.
  intros Ht ym m0 l0 d'. subst d' l0 m0.
  unfold Store.add_event_pressed, Store.finish. fold ym.
  destruct t as [|c t]; [congruence|].
  destruct s as [ev f w c0 sh]. run_script.
  destruct (ev !! ym) as [m|] eqn:Hym; run_script.
  - rewrite Hym. run_script.
    destruct (m !! date) as [l|] eqn:Hd; run_script.
    + rewrite Hym. run_script. rewrite Hd. run_script. reflexivity.
    + rewrite lookup_insert_eq. run_script. rewrite lookup_insert_eq. run_script.
      rewrite !insert_insert_eq. reflexivity.
  - rewrite lookup_insert_eq. run_script. rewrite lookup_empty. run_script.
    rewrite lookup_insert_eq. run_script. rewrite lookup_insert_eq. run_script.
    rewrite !insert_insert_eq. reflexivity.
Qed.

Lemma add_event_pressed_empty_title date ds s :
  Store.add_event_pressed isoformat date "" ds s =
  (Store.Ret tt,
   Store.State (Store.events s) (Store.file s) (Store.writes s) (Store.clock s)
     (Store.Warning "イベントタイトルは必須です。" :: Store.shown s)).
Proof. reflexivity. Qed.

(** The document after the deletion of the event at position [i] of the
    list [l] of [date] in the month [m]. *)
Lemma delete_event_pressed_run date i s (m : Store.month) l :
  let ym := Text.take 7 date in
  Store.events s !! ym = Some m -> m !! date = Some l -> (i < length l)%nat ->
  let l' := delete i l in
  let m' := match l' with [] => delete date m | _ :: _ => <[date := l']> m end in
  let d' := if bool_decide (m' = ∅) then delete ym (Store.events s)
            else <[ym := m']> (Store.events s) in
  Store.delete_event_pressed date i s =
  Store.finish (Store.Success "イベントを削除しました。")
    (Store.State d' (Store.file s) (Store.writes s) (Store.clock s) (Store.shown s)).
Proof.
  intros ym Hym Hd Hi l' m' d'. subst d' m' l'.
  unfold Store.delete_event_pressed, Store.finish. fold ym.
  destruct s as [ev f w c0 sh]. simpl in *. run_script.
  rewrite Hym. run_script. rewrite Hd. run_script.
  rewrite bool_decide_true by done. run_script.
  rewrite lookup_insert_eq. run_script. rewrite lookup_insert_eq. run_script.
  destruct (delete i l) as [|e l'] eqn:Hl'; run_script.
  - rewrite lookup_insert_eq. run_script.
    rewrite insert_insert_eq, delete_insert_eq.
    case_bool_decide; run_script.
    + rewrite delete_insert_eq. reflexivity.
    + reflexivity.
  - rewrite lookup_insert_eq. run_script.
    rewrite bool_decide_false by apply insert_non_empty.
    reflexivity.
Qed.

Lemma delete_event_pressed_out_of_range date i s (m : Store.month) l :
  Store.events s !! Text.take 7 date = Some m -> m !! date = Some l ->
  (length l <= i)%nat ->
  Store.delete_event_pressed date i s = (Store.Raise Store.IndexError, s).
Proof.
  intros Hym Hd Hi. unfold Store.delete_event_pressed.
  destruct s as [ev f w c0 sh]. simpl in *. run_script.
  rewrite Hym. run_script. rewrite Hd. run_script.
  rewrite bool_decide_false by lia. reflexivity.
Qed.

(** A run in which no delete button of the list is pressed only displays:
    it leaves the state as it is, and it raises only on a timestamp that
    cannot be read. *)
Lemma show_events_not_pressed pressed date i pending s :
  (forall j, (i <= j < i + length pending)%nat ->
             pressed <> Some (Store.DeleteEvent date j)) ->
  Store.show_events fromisoformat pressed date i pending s =
  (if forallb (fun e => bool_decide (is_Some (fromisoformat (Store.timestamp e)))) pending
   then Store.Ret tt else Store.Raise Store.ValueError, s).
Proof.
  revert i. induction pending as [|e rest IH]; intros i Hno; simpl.
  - reflexivity.
  - destruct (fromisoformat (Store.timestamp e)) as [t|] eqn:Ht; simpl.
    + unfold Store.st_button. rewrite bool_decide_false by (apply Hno; simpl; lia).
      apply IH. intros j Hj. apply Hno. simpl. lia.
    + reflexivity.
Qed.

(** The press of the delete button at position [i + length pre] reaches
    its handler when the events before it and the event itself can be
    displayed. *)
Lemma show_events_pressed date i pre e post s :
  Forall (fun e => is_Some (fromisoformat (Store.timestamp e))) (pre ++ [e]) ->
  Store.show_events fromisoformat (Some (Store.DeleteEvent date (i + length pre))) date i
    (pre ++ e :: post) s =
  Store.delete_event_pressed date (i + length pre) s.
Proof.
  revert i. induction pre as [|x pre IH]; intros i Hall; simpl.
  - apply Forall_cons in Hall as [[t Ht] _]. rewrite Ht.
    unfold Store.st_button. rewrite Nat.add_0_r.
    rewrite bool_decide_true by reflexivity. reflexivity.
  - apply Forall_cons in Hall as [[t Ht] Hall]. rewrite Ht.
    unfold Store.st_button.
    rewrite bool_decide_false by (intros [= Hi]; lia).
    replace (i + S (length pre))%nat with (S i + length pre)%nat by lia.
    apply IH, Hall.
Qed.

(** *** No empty container *)

Lemma pruned_empty : Store.pruned ∅.
Proof. intros ym m H. rewrite lookup_empty in H. discriminate. Qed.

Lemma pruned_default (d : Store.document) ym date l :
  Store.pruned d -> default ∅ (d !! ym) !! date = Some l -> l <> [].
Proof.
  intros Hp H. destruct (d !! ym) as [m|] eqn:Hym; simpl in H.
  - destruct (Hp ym m Hym) as [_ Hl]. eapply Hl, H.
  - rewrite lookup_empty in H. discriminate.
Qed.

Lemma pruned_added (d : Store.document) ym date e :
  Store.pruned d ->
  let m0 := default ∅ (d !! ym) in
  Store.pruned (<[ym := <[date := default [] (m0 !! date) ++ [e]]> m0]> d).
Proof.
  intros Hp m0 ym' m Hm.
  destruct (decide (ym = ym')) as [<-|Hne].
  - rewrite lookup_insert_eq in Hm. injection Hm as <-. split.
    + apply insert_non_empty.
    + intros date' l Hl. destruct (decide (date = date')) as [<-|Hd].
      * rewrite lookup_insert_eq in Hl. injection Hl as <-.
        intros Happ. apply app_eq_nil in Happ as [_ ?]. discriminate.
      * rewrite lookup_insert_ne in Hl by done. eapply pruned_default; eauto.
  - rewrite lookup_insert_ne in Hm by done. eapply Hp, Hm.
Qed.

Lemma pruned_deleted (d : Store.document) ym date (m : Store.month) l i :
  Store.pruned d -> d !! ym = Some m -> m !! date = Some l ->
  let l' := delete i l in
  let m' := match l' with [] => delete date m | _ :: _ => <[date := l']> m end in
  Store.pruned (if bool_decide (m' = ∅) then delete ym d else <[ym := m']> d).
Proof.
  intros Hp Hym Hd l' m'. destruct (Hp ym m Hym) as [_ Hdates].
  case_bool_decide as Hempty.
  - intros ym' m1 Hm1. apply lookup_delete_Some in Hm1 as [_ Hm1]. eapply Hp, Hm1.
  - intros ym' m1 Hm1. destruct (decide (ym = ym')) as [<-|Hne].
    + rewrite lookup_insert_eq in Hm1. injection Hm1 as <-. split; [exact Hempty|].
      intros date' l1 Hl1. subst m'. destruct l' as [|x l2] eqn:El'.
      * apply lookup_delete_Some in Hl1 as [_ Hl1]. eapply Hdates, Hl1.
      * destruct (decide (date = date')) as [<-|Hdne].
        -- rewrite lookup_insert_eq in Hl1. injection Hl1 as <-. discriminate.
        -- rewrite lookup_insert_ne in Hl1 by done. eapply Hdates, Hl1.
    + rewrite lookup_insert_ne in Hm1 by done. eapply Hp, Hm1.
Qed.

Lemma delete_event_pressed_pruned date i s o s' :
  Store.pruned (Store.events s) ->
  Store.delete_event_pressed date i s = (o, s') ->
  Store.pruned (Store.events s').
Proof.
  intros Hp Hrun.
  destruct (Store.events s !! Text.take 7 date) as [m|] eqn:Hym.
  - destruct (m !! date) as [l|] eqn:Hd.
    + destruct (decide (i < length l)%nat) as [Hi|Hi].
      * rewrite (delete_event_pressed_run date i s m l Hym Hd Hi) in Hrun.
        apply (f_equal snd) in Hrun. simpl in Hrun. subst s'.
        rewrite finish_events. simpl. apply pruned_deleted; assumption.
      * rewrite (delete_event_pressed_out_of_range date i s m l Hym Hd) in Hrun by lia.
        injection Hrun as _ <-. exact Hp.
    + unfold Store.delete_event_pressed in Hrun.
      destruct s as [ev f w c0 sh]. simpl in *. revert Hrun. run_script.
      rewrite Hym. run_script. rewrite Hd. run_script.
      intros [= _ <-]. exact Hp.
  - unfold Store.delete_event_pressed in Hrun.
    destruct s as [ev f w c0 sh]. simpl in *. revert Hrun. run_script.
    rewrite Hym. run_script. intros [= _ <-]. exact Hp.
Qed.

Lemma show_events_pruned pressed date i pending s o s' :
  Store.pruned (Store.events s) ->
  Store.show_events fromisoformat pressed date i pending s = (o, s') ->
  Store.pruned (Store.events s').
Proof.
  revert i. induction pending as [|e rest IH]; intros i Hp; simpl.
  - intros [= _ <-]. exact Hp.
  - destruct (fromisoformat (Store.timestamp e)).
    + destruct (Store.st_button pressed (Store.DeleteEvent date i)).
      * apply delete_event_pressed_pruned, Hp.
      * apply IH, Hp.
    + intros [= _ <-]. exact Hp.
Qed.

Lemma event_list_pruned pressed date s o s' :
  Store.pruned (Store.events s) ->
  Store.event_list fromisoformat pressed date s = (o, s') ->
  Store.pruned (Store.events s').
Proof.
  intros Hp. unfold Store.event_list.
  destruct s as [ev f w c0 sh]. simpl in *. run_script.
  destruct (ev !! Text.take 7 date) as [m|]; [|intros [= _ <-]; exact Hp].
  destruct (m !! date) as [l|]; [|intros [= _ <-]; exact Hp].
  destruct l as [|e l]; [intros [= _ <-]; exact Hp|].
  apply (show_events_pruned pressed date 0 (e :: l) (Store.State ev f w c0 sh) o s' Hp).
Qed.

Lemma event_column_pruned pressed date t ds s o s' :
  Store.pruned (Store.events s) ->
  Store.event_column isoformat fromisoformat pressed date t ds s = (o, s') ->
  Store.pruned (Store.events s').
Proof.
  intros Hp. unfold Store.event_column.
  destruct date as [|ch date0]; [intros [= _ <-]; exact Hp|].
  set (date := String ch date0).
  destruct (Store.st_button pressed (Store.AddEvent date)).
  - destruct (decide (t = "")) as [->|Ht].
    + unfold mbind at 1, Store.M_bind. rewrite add_event_pressed_empty_title.
      apply event_list_pruned. exact Hp.
    + unfold mbind at 1, Store.M_bind. rewrite add_event_pressed_run by exact Ht.
      set (s1 := Store.State _ _ _ _ _). set (msg := Store.Success _).
      pose proof (finish_events msg s1) as He.
      destruct (finish_raises msg s1) as [Ho|Ho];
        destruct (Store.finish msg s1) as [o1 s2]; simpl in *; subst o1;
        intros [= _ <-]; rewrite He; apply pruned_added, Hp.
  - unfold mbind at 1, mret, Store.M_bind, Store.M_ret.
    apply event_list_pruned. exact Hp.
Qed.

(** *** The list of a date *)

Lemma list_events_default (d : Store.document) date :
  Store.list_events d date = default [] (default ∅ (d !! Text.take 7 date) !! date).
Proof.
  unfold Store.list_events.
  destruct (d !! Text.take 7 date) as [m|]; simpl.
  - destruct (m !! date); reflexivity.
  - rewrite lookup_empty. reflexivity.
Qed.

Lemma list_events_Some (d : Store.document) date (m : Store.month) l :
  d !! Text.take 7 date = Some m -> m !! date = Some l -> Store.list_events d date = l.
Proof. intros H1 H2. unfold Store.list_events. rewrite H1, H2. reflexivity. Qed.

(** A run of the list in which no delete button of the list is pressed. *)
Lemma event_list_idle pressed date s :
  (forall j, (j < length (Store.list_events (Store.events s) date))%nat ->
             pressed <> Some (Store.DeleteEvent date j)) ->
  Store.event_list fromisoformat pressed date s =
  match Store.list_events (Store.events s) date with
  | [] =>
      (Store.Ret tt,
       Store.State (Store.events s) (Store.file s) (Store.writes s) (Store.clock s)
         (Store.Info "この日付にはイベントがありません。" :: Store.shown s))
  | l =>
      (if forallb (fun e => bool_decide (is_Some (fromisoformat (Store.timestamp e)))) l
       then Store.Ret tt else Store.Raise Store.ValueError, s)
  end.
Proof.
  unfold Store.event_list, Store.list_events.
  destruct s as [ev f w c0 sh]. simpl. run_script.
  destruct (ev !! Text.take 7 date) as [m|]; [|reflexivity].
  destruct (m !! date) as [l|]; [|reflexivity].
  destruct l as [|e l]; [reflexivity|].
  intros Hno. apply show_events_not_pressed.
  intros j Hj. apply Hno. lia.
Qed.

Lemma event_list_idle_state pressed date s :
  (forall j, (j < length (Store.list_events (Store.events s) date))%nat ->
             pressed <> Some (Store.DeleteEvent date j)) ->
  let r := Store.event_list fromisoformat pressed date s in
  Store.events r.2 = Store.events s /\ Store.file r.2 = Store.file s /\
  Store.writes r.2 = Store.writes s /\
  (r.1 = Store.Ret tt \/ r.1 = Store.Raise Store.ValueError) /\
  (Forall (fun e => is_Some (fromisoformat (Store.timestamp e)))
     (Store.list_events (Store.events s) date) -> r.1 = Store.Ret tt).
Proof.
  intros Hno r. subst r. rewrite event_list_idle by exact Hno.
  destruct (Store.list_events (Store.events s) date) as [|e l] eqn:El.
  - simpl. auto 10.
  - set (ok := forallb _ _). simpl. repeat split.
    + destruct ok; auto.
    + intros Hall. assert (ok = true) as ->; [|reflexivity].
      subst ok. apply forallb_forall. intros x Hx.
      apply bool_decide_eq_true. rewrite Forall_forall in Hall.
      apply Hall. apply list_elem_of_In. exact Hx.
Qed.

(** ** Theorems about the event store *)

(** C1: after an event with a non-empty title is added, the list of its
    date is the list of before with one more record at its end, which
    carries the title and the description entered and the time of a clock
    reading made between the start and the end of the call. *)
Theorem C1_added_event_is_listed (date event_title event_description : string)
    (s : Store.state) :
  event_title <> "" ->
  let s' := (Store.add_event_pressed isoformat date event_title event_description s).2 in
  exists now,
    (Store.clock s <= now <= Store.clock s')%nat /\
    Store.list_events (Store.events s') date =
    Store.list_events (Store.events s) date ++
      [Store.Event event_title event_description (isoformat now)].
Proof.
  intros Ht s'. subst s'. rewrite add_event_pressed_run by exact Ht.
  rewrite ?finish_events, ?finish_clock. simpl.
  exists (Store.clock s). split; [lia|].
  rewrite (list_events_default (Store.events s)).
  unfold Store.list_events. rewrite lookup_insert_eq, lookup_insert_eq. reflexivity.
Qed.

(** C5: with an empty title the add button only shows a warning: the
    handler returns, and in the whole run of the column the document is
    not changed and the file is not written. *)
Theorem C5_empty_title_rejected (date event_description : string) (s : Store.state) :
  Store.add_event_pressed isoformat date "" event_description s =
    (Store.Ret tt,
     Store.State (Store.events s) (Store.file s) (Store.writes s) (Store.clock s)
       (Store.Warning "イベントタイトルは必須です。" :: Store.shown s)) /\
  let r := Store.event_column isoformat fromisoformat (Some (Store.AddEvent date))
             date "" event_description s in
  Store.events r.2 = Store.events s /\
  Store.file r.2 = Store.file s /\
  Store.writes r.2 = Store.writes s.
Proof.
  split; [reflexivity|].
  set (s1 := Store.State (Store.events s) (Store.file s) (Store.writes s) (Store.clock s)
               (Store.Warning "イベントタイトルは必須です。" :: Store.shown s)).
  destruct date as [|ch date0]; [simpl; auto|].
  set (date := String ch date0).
  assert (Store.event_column isoformat fromisoformat (Some (Store.AddEvent date))
            date "" event_description s =
          Store.event_list fromisoformat (Some (Store.AddEvent date)) date s1) as ->.
  { unfold Store.event_column, Store.st_button. subst date.
    rewrite bool_decide_true by reflexivity. reflexivity. }
  destruct (event_list_idle_state (Some (Store.AddEvent date)) date s1)
    as (He & Hf & Hw & _); [intros j _; discriminate|].
  simpl. rewrite He, Hf, Hw. auto.
Qed.

(** C10: adding an event leaves the rest of the document as it was: the
    other months, the other dates of every month, and the events that the
    date already had, each at its position. *)
Theorem C10_add_event_frame (date event_title event_description : string)
    (s : Store.state) :
  event_title <> "" ->
  let d := Store.events s in
  let d' := Store.events
              (Store.add_event_pressed isoformat date event_title event_description s).2 in
  (forall ym, ym <> Text.take 7 date -> d' !! ym = d !! ym) /\
  (forall ym date', date' <> date ->
     d' !! ym ≫= (fun m => m !! date') = d !! ym ≫= (fun m => m !! date')) /\
  (forall i e, Store.list_events d date !! i = Some e ->
               Store.list_events d' date !! i = Some e).
Proof.
  intros Ht d d'. subst d d'. rewrite add_event_pressed_run by exact Ht.
  rewrite ?finish_events, ?finish_clock. simpl.
  split; [|split].
  - intros ym Hym. rewrite lookup_insert_ne by done. reflexivity.
  - intros ym date' Hd. destruct (decide (Text.take 7 date = ym)) as [<-|Hym].
    + rewrite lookup_insert_eq. simpl. rewrite lookup_insert_ne by done.
      destruct (Store.events s !! Text.take 7 date); simpl; [reflexivity|].
      apply lookup_empty.
    + rewrite lookup_insert_ne by done. reflexivity.
  - intros i e Hi. rewrite (list_events_default (Store.events s)) in Hi.
    unfold Store.list_events. rewrite lookup_insert_eq, lookup_insert_eq.
    apply lookup_app_l_Some, Hi.
Qed.

(** C4: the press of a delete button whose position is not in the list of
    the date (any more) does nothing: the run is the run in which nothing
    is pressed, the document and the file stay as they are, and no
    [IndexError] or [KeyError] is raised; the run ends normally whenever
    the events of the date can be displayed. *)
Theorem C4_delete_out_of_range_is_noop (date event_title event_description : string)
    (i : nat) (s : Store.state) :
  (length (Store.list_events (Store.events s) date) <= i)%nat ->
  let r := Store.event_column isoformat fromisoformat (Some (Store.DeleteEvent date i))
             date event_title event_description s in
  r = Store.event_column isoformat fromisoformat None date event_title event_description s /\
  Store.events r.2 = Store.events s /\
  Store.file r.2 = Store.file s /\
  Store.writes r.2 = Store.writes s /\
  (r.1 = Store.Ret tt \/ r.1 = Store.Raise Store.ValueError) /\
  (Forall (fun e => is_Some (fromisoformat (Store.timestamp e)))
     (Store.list_events (Store.events s) date) -> r.1 = Store.Ret tt).
Proof.
  intros Hi r. subst r.
  destruct date as [|ch date0]; [simpl; auto 10|].
  set (date := String ch date0) in *.
  assert (Hno : forall j, (j < length (Store.list_events (Store.events s) date))%nat ->
                  Some (Store.DeleteEvent date i) <> Some (Store.DeleteEvent date j)).
  { intros j Hj [= ->]. lia. }
  assert (Hcol : forall pressed,
            Store.st_button pressed (Store.AddEvent date) = false ->
            Store.event_column isoformat fromisoformat pressed date event_title
              event_description s = Store.event_list fromisoformat pressed date s).
  { intros pressed Hb. unfold Store.event_column. subst date. rewrite Hb. reflexivity. }
  rewrite !Hcol by reflexivity.
  split.
  - rewrite !event_list_idle; [reflexivity | intros j _; discriminate | exact Hno].
  - apply (event_list_idle_state _ date s Hno).
Qed.

Lemma produced_pruned s s' :
  Store.pruned (Store.events s) ->
  Store.produced isoformat fromisoformat s s' ->
  Store.pruned (Store.events s').
Proof.
  intros Hp Hprod. induction Hprod as [|s1 pressed date t ds o s2 _ IH Hrun].
  - exact Hp.
  - eapply event_column_pruned; [exact IH | exact Hrun].
Qed.

(** C3: when the only event of the selected date is deleted, the date is removed
    from its month, and the month is removed from the document if no date
    is left in it; and no document that adding and deleting produce, from
    the empty document or from any document without empty containers, has
    a month without a date or a date without an event. *)
Theorem C3_pruning (event_title event_description : string) :
  (forall date e (m : Store.month) s,
     date <> "" ->
     Store.events s !! Text.take 7 date = Some m ->
     m !! date = Some [e] ->
     is_Some (fromisoformat (Store.timestamp e)) ->
     let d' := Store.events
                 (Store.event_column isoformat fromisoformat
                    (Some (Store.DeleteEvent date 0)) date event_title
                    event_description s).2 in
     (delete date m <> ∅ ->
      d' = <[Text.take 7 date := delete date m]> (Store.events s)) /\
     (delete date m = ∅ -> d' = delete (Text.take 7 date) (Store.events s)) /\
     d' !! Text.take 7 date ≫= (fun m' => m' !! date) = None) /\
  (forall s s',
     Store.events s = ∅ ->
     Store.produced isoformat fromisoformat s s' ->
     Store.pruned (Store.events s')) /\
  (forall s s',
     Store.pruned (Store.events s) ->
     Store.produced isoformat fromisoformat s s' ->
     Store.pruned (Store.events s')).
Proof.
  split; [|split].
  - intros date e m s Hdate Hym Hd Hts d'.
    assert (Hrun : Store.event_column isoformat fromisoformat
                     (Some (Store.DeleteEvent date 0)) date event_title
                     event_description s =
                   Store.delete_event_pressed date 0 s).
    { unfold Store.event_column, Store.st_button.
      destruct date as [|ch date0]; [congruence|]. set (date := String ch date0) in *.
      rewrite bool_decide_false by discriminate.
      transitivity (Store.event_list fromisoformat (Some (Store.DeleteEvent date 0)) date s);
        [reflexivity|].
      unfold Store.event_list. destruct s as [ev f w c0 sh]. simpl in *. run_script.
      rewrite Hym, Hd.
      apply (show_events_pressed date 0 [] e [] (Store.State ev f w c0 sh)).
      repeat constructor. exact Hts. }
    subst d'. rewrite Hrun.
    rewrite (delete_event_pressed_run date 0 s m [e] Hym Hd) by (simpl; lia).
    rewrite finish_events. simpl. split; [|split].
    + intros Hne. rewrite bool_decide_false by exact Hne. reflexivity.
    + intros He. rewrite bool_decide_true by exact He. reflexivity.
    + case_bool_decide.
      * rewrite lookup_delete_eq. reflexivity.
      * rewrite lookup_insert_eq. simpl. apply lookup_delete_eq.
  - intros s s' He. apply produced_pruned. rewrite He. apply pruned_empty.
  - intros s s'. apply produced_pruned.
Qed.

End HandlerFacts.

(** C8: without a file, [load_events] returns the empty dict, which is
    the empty document, and leaves the state as it is: nothing is shown,
    nothing is raised. *)
Theorem C8_missing_file_is_empty_document (s : Store.state) :
  Store.file s = None ->
  Store.load_events s = (Store.Ret (Json.JObj []), s) /\
  Store.as_document (Json.JObj []) = Some ∅.
Proof.
  intros H. split; [apply load_events_absent, H | reflexivity].
Qed.

Lemma C8_missing_file_is_empty_document_witness :
  Store.load_events (Store.State ∅ None 0 0 []) =
    (Store.Ret (Json.JObj []), Store.State ∅ None 0 0 []) /\
  Store.as_document (Json.JObj []) = Some ∅.
Proof.
  apply (C8_missing_file_is_empty_document (Store.State ∅ None 0 0 [])).
  reflexivity.
Defined.

(** C6, where the code departs from it: a file whose bytes are not UTF-8,
    such as one cut in the middle of a character (here after the first two
    of the three bytes of a kanji), makes [load_events] raise
    [UnicodeDecodeError], which [except json.JSONDecodeError] does not
    catch; so does the single byte 255. *)
Theorem C6_undecodable_file_raises (d : Store.document) (w c : nat)
    (sh : list Store.message) :
  let cut := String "{" (String "034" (String "230" (String "151" ""))) in
  Store.load_events (Store.State d (Some cut) w c sh) =
    (Store.Raise Store.UnicodeDecodeError, Store.State d (Some cut) w c sh) /\
  Store.load_events (Store.State d (Some (String "255" "")) w c sh) =
    (Store.Raise Store.UnicodeDecodeError,
     Store.State d (Some (String "255" "")) w c sh).
Proof. split; reflexivity. Qed.

(** What the code does for a file that is text but no JSON: the empty
    dict, an error message, and the file left as it is. *)
Example load_events_truncated_json (d : Store.document) (w c : nat)
    (sh : list Store.message) :
  Store.load_events (Store.State d (Some "{") w c sh) =
  (Store.Ret (Json.JObj []),
   Store.State d (Some "{") w c
     (Store.Error "イベントファイルが破損しています。空のデータで開始します。" :: sh)).
Proof. reflexivity. Qed.

(** ** Writing a value and reading it back *)

(** Reading an escaped character gives the character. *)
Lemma scan_string_escape_char (c : ascii) (t : string) :
  Json.scan_string (Json.escape_char c +:+ t) =
  Json.with_prefix (String c "") (Json.scan_string t).
Proof.
  destruct c as [[] [] [] [] [] [] [] []]; reflexivity.
Qed.

Lemma scan_string_escape (s rest : string) :
  Json.scan_string (Json.escape s +:+ String "034" rest) = Some (s, rest).
Proof.
  induction s as [|c s IH]; [reflexivity|].
  simpl Json.escape. rewrite text_app_assoc, scan_string_escape_char, IH.
  reflexivity.
Qed.

Lemma quote_app (s rest : string) :
  Json.quote s +:+ rest = String "034" (Json.escape s +:+ String "034" rest).
Proof.
  unfold Json.quote. rewrite text_app_cons, text_app_assoc. reflexivity.
Qed.

Lemma skip_ws_spaces (n : nat) (t : string) :
  Json.skip_ws (Text.spaces n +:+ t) = Json.skip_ws t.
Proof. induction n as [|n IH]; [reflexivity|]. simpl. exact IH. Qed.

Lemma skip_ws_newline_indent (lvl : nat) (t : string) :
  Json.skip_ws (Json.newline_indent lvl +:+ t) = Json.skip_ws t.
Proof.
  unfold Json.newline_indent. rewrite text_app_cons.
  change (Json.skip_ws (String "010" ?x)) with (Json.skip_ws x).
  apply skip_ws_spaces.
Qed.

Lemma quote_starts_value (s : string) : Json.starts_value (Json.quote s).
Proof. unfold Json.starts_value, Json.quote. eauto 10. Qed.

Lemma dumps_at_starts_value (lvl : nat) (v : Json.json) :
  Json.plain v = true -> Json.starts_value (Json.dumps_at lvl v).
Proof.
  unfold Json.starts_value.
  destruct v as [|[]|n|s|[|x xs]|[|[k x] ms]]; simpl; intros Hp;
    try discriminate; eauto 10.
Qed.

Lemma skip_ws_starts_value (s t : string) :
  Json.starts_value s -> Json.skip_ws (s +:+ t) = s +:+ t.
Proof.
  intros (c & r & -> & Hws & _). rewrite text_app_cons. simpl. rewrite Hws. reflexivity.
Qed.

Lemma items_app_tail (lvl : nat) (tail rest : string) (xs : list Json.json) :
  fold_right
    (fun y acc => "," +:+ Json.newline_indent (S lvl) +:+ Json.dumps_at (S lvl) y +:+ acc)
    tail xs +:+ rest =
  fold_right
    (fun y acc => "," +:+ Json.newline_indent (S lvl) +:+ Json.dumps_at (S lvl) y +:+ acc)
    (tail +:+ rest) xs.
Proof.
  induction xs as [|y xs IH]; simpl; [reflexivity|].
  rewrite !text_app_assoc, IH. reflexivity.
Qed.

Lemma members_app_tail (lvl : nat) (tail rest : string) (ms : list (string * Json.json)) :
  fold_right
    (fun m acc =>
       "," +:+ Json.newline_indent (S lvl) +:+ Json.quote (fst m) +:+ ": " +:+
       Json.dumps_at (S lvl) (snd m) +:+ acc)
    tail ms +:+ rest =
  fold_right
    (fun m acc =>
       "," +:+ Json.newline_indent (S lvl) +:+ Json.quote (fst m) +:+ ": " +:+
       Json.dumps_at (S lvl) (snd m) +:+ acc)
    (tail +:+ rest) ms.
Proof.
  induction ms as [|m ms IH]; simpl; [reflexivity|].
  rewrite !text_app_assoc, IH. reflexivity.
Qed.

Lemma scan_value_string (f : nat) (t : string) :
  Json.scan_value (S f) (String "034" t) =
  match Json.scan_string t with
  | Some (s, r) => Some (Json.JStr s, r)
  | None => None
  end.
Proof. reflexivity. Qed.

Lemma scan_value_array (f : nat) (t : string) :
  Json.scan_value (S f) (String "[" t) =
  match Json.skip_ws t with
  | String c1 r1 =>
      if Ascii.eqb c1 "]" then Some (Json.JArr [], r1)
      else
        match Json.scan_items f (String c1 r1) with
        | Some (xs, r) => Some (Json.JArr xs, r)
        | None => None
        end
  | EmptyString => None
  end.
Proof. reflexivity. Qed.

Lemma scan_value_object (f : nat) (t : string) :
  Json.scan_value (S f) (String "{" t) =
  match Json.skip_ws t with
  | String c1 r1 =>
      if Ascii.eqb c1 "}" then Some (Json.JObj [], r1)
      else
        match Json.scan_members f (String c1 r1) with
        | Some (ms, r) => Some (Json.JObj ms, r)
        | None => None
        end
  | EmptyString => None
  end.
Proof. reflexivity. Qed.

Lemma scan_items_step (f : nat) (s : string) :
  Json.scan_items (S f) s =
  match Json.scan_value f s with
  | Some (x, r) =>
      match Json.skip_ws r with
      | String c r1 =>
          if Ascii.eqb c "]" then Some ([x], r1)
          else if Ascii.eqb c "," then
            match Json.scan_items f (Json.skip_ws r1) with
            | Some (xs, r2) => Some (x :: xs, r2)
            | None => None
            end
          else None
      | EmptyString => None
      end
  | None => None
  end.
Proof. reflexivity. Qed.

Lemma scan_members_step (f : nat) (t : string) :
  Json.scan_members (S f) (String "034" t) =
  match Json.scan_string t with
  | Some (k, r) =>
      match Json.skip_ws r with
      | String c r1 =>
          if Ascii.eqb c ":" then
            match Json.scan_value f (Json.skip_ws r1) with
            | Some (x, r2) =>
                match Json.skip_ws r2 with
                | String d r3 =>
                    if Ascii.eqb d "}" then Some ([(k, x)], r3)
                    else if Ascii.eqb d "," then
                      match Json.scan_members f (Json.skip_ws r3) with
                      | Some (ms, r4) => Some ((k, x) :: ms, r4)
                      | None => None
                      end
                    else None
                | EmptyString => None
                end
            | None => None
            end
          else None
      | EmptyString => None
      end
  | None => None
  end.
Proof. reflexivity. Qed.

Lemma scan_dumped (fuel : nat) :
  (forall v lvl rest,
     Json.plain v = true -> (Json.nodes v < fuel)%nat ->
     Json.scan_value fuel (Json.dumps_at lvl v +:+ rest) = Some (v, rest)) /\
  (forall x xs lvl rest,
     Json.plain (Json.JArr (x :: xs)) = true ->
     (Json.nodes (Json.JArr (x :: xs)) <= fuel)%nat ->
     Json.scan_items fuel
       (Json.dumps_at (S lvl) x +:+
        fold_right
          (fun y acc =>
             "," +:+ Json.newline_indent (S lvl) +:+ Json.dumps_at (S lvl) y +:+ acc)
          (Json.newline_indent lvl +:+ String "]" rest) xs) =
     Some (x :: xs, rest)) /\
  (forall k x ms lvl rest,
     Json.plain (Json.JObj ((k, x) :: ms)) = true ->
     (Json.nodes (Json.JObj ((k, x) :: ms)) <= fuel)%nat ->
     Json.scan_members fuel
       (Json.quote k +:+ ": " +:+ Json.dumps_at (S lvl) x +:+
        fold_right
          (fun m acc =>
             "," +:+ Json.newline_indent (S lvl) +:+ Json.quote (fst m) +:+ ": " +:+
             Json.dumps_at (S lvl) (snd m) +:+ acc)
          (Json.newline_indent lvl +:+ String "}" rest) ms) =
     Some ((k, x) :: ms, rest)).
Proof.
  induction fuel as [|f (IHv & IHi & IHm)].
  { repeat split; intros; simpl in *; lia. }
  split; [|split].
  - intros v lvl rest Hp Hn.
    destruct v as [|[]|n|s|[|x xs]|[|[k x] ms]]; try discriminate; try reflexivity.
    + change (Json.dumps_at lvl (Json.JStr s)) with (Json.quote s).
      rewrite quote_app, scan_value_string, scan_string_escape. reflexivity.
    + change (Json.dumps_at lvl (Json.JArr (x :: xs))) with
        ("[" +:+ Json.newline_indent (S lvl) +:+ Json.dumps_at (S lvl) x +:+
         fold_right
           (fun y acc =>
              "," +:+ Json.newline_indent (S lvl) +:+ Json.dumps_at (S lvl) y +:+ acc)
           (Json.newline_indent lvl +:+ "]") xs).
      rewrite !text_app_assoc, items_app_tail, text_app_assoc.
      change ("[" +:+ ?t) with (String "[" t). change ("]" +:+ rest) with (String "]" rest).
      rewrite scan_value_array, skip_ws_newline_indent.
      assert (Hx : Json.plain x = true) by (simpl in Hp; apply andb_prop in Hp; tauto).
      destruct (dumps_at_starts_value (S lvl) x Hx) as (c & r & Hd & Hws & Hb & _).
      rewrite skip_ws_starts_value by (apply dumps_at_starts_value, Hx).
      rewrite Hd at 1. rewrite text_app_cons, Hb, <- text_app_cons, <- Hd.
      rewrite IHi; [reflexivity | exact Hp | simpl in *; lia].
    + change (Json.dumps_at lvl (Json.JObj ((k, x) :: ms))) with
        ("{" +:+ Json.newline_indent (S lvl) +:+ Json.quote k +:+ ": " +:+
         Json.dumps_at (S lvl) x +:+
         fold_right
           (fun m acc =>
              "," +:+ Json.newline_indent (S lvl) +:+ Json.quote (fst m) +:+ ": " +:+
              Json.dumps_at (S lvl) (snd m) +:+ acc)
           (Json.newline_indent lvl +:+ "}") ms).
      rewrite !text_app_assoc, members_app_tail, text_app_assoc.
      change ("{" +:+ ?t) with (String "{" t). change ("}" +:+ rest) with (String "}" rest).
      rewrite scan_value_object, skip_ws_newline_indent.
      rewrite skip_ws_starts_value by apply quote_starts_value.
      rewrite (quote_app k) at 1. simpl Ascii.eqb. cbv iota.
      rewrite <- quote_app.
      rewrite IHm; [reflexivity | exact Hp | simpl in *; lia].
  - intros x xs lvl rest Hp Hn. rewrite scan_items_step.
    assert (Hx : Json.plain x = true) by (simpl in Hp; apply andb_prop in Hp; tauto).
    rewrite IHv by (try exact Hx; simpl in *; lia).
    destruct xs as [|y ys].
    + simpl fold_right. rewrite skip_ws_newline_indent. reflexivity.
    + simpl fold_right.
      change ("," +:+ ?t) with (String "," t).
      change (Json.skip_ws (String "," ?t)) with (String "," t).
      simpl Ascii.eqb. cbv iota.
      rewrite skip_ws_newline_indent.
      assert (Hy : Json.plain (Json.JArr (y :: ys)) = true)
        by (simpl in Hp; apply andb_prop in Hp; simpl; tauto).
      rewrite skip_ws_starts_value
        by (apply dumps_at_starts_value; simpl in Hy; apply andb_prop in Hy; tauto).
      rewrite IHi; [reflexivity | exact Hy | simpl in *; lia].
  - intros k x ms lvl rest Hp Hn.
    rewrite quote_app, scan_members_step, scan_string_escape.
    change (": " +:+ ?t) with (String ":" (String " " t)).
    change (Json.skip_ws (String ":" ?t)) with (String ":" t).
    simpl Ascii.eqb. cbv iota.
    change (Json.skip_ws (String " " ?t)) with (Json.skip_ws t).
    assert (Hx : Json.plain x = true) by (simpl in Hp; apply andb_prop in Hp; tauto).
    rewrite skip_ws_starts_value by (apply dumps_at_starts_value, Hx).
    rewrite IHv by (try exact Hx; simpl in *; lia).
    destruct ms as [|[k' y] ms'].
    + simpl fold_right. rewrite skip_ws_newline_indent. reflexivity.
    + simpl fold_right.
      change ("," +:+ ?t) with (String "," t).
      change (Json.skip_ws (String "," ?t)) with (String "," t).
      simpl Ascii.eqb. cbv iota.
      rewrite skip_ws_newline_indent.
      rewrite skip_ws_starts_value by apply quote_starts_value.
      assert (Hy : Json.plain (Json.JObj ((k', y) :: ms')) = true)
        by (simpl in Hp; apply andb_prop in Hp; simpl; tauto).
      rewrite IHm; [reflexivity | exact Hy | simpl in *; lia].
Qed.

(** Induction on a value and on the values inside it. *)
Lemma json_induction (P : Json.json -> Prop) :
  P Json.JNull ->
  (forall b, P (Json.JBool b)) ->
  (forall n, P (Json.JNum n)) ->
  (forall s, P (Json.JStr s)) ->
  (forall l, Forall P l -> P (Json.JArr l)) ->
  (forall ms, Forall (fun m => P (snd m)) ms -> P (Json.JObj ms)) ->
  forall v, P v.
Proof.
  intros Hnull Hbool Hnum Hstr Harr Hobj.
  fix IH 1. intros [|b|n|s|l|ms].
  - exact Hnull.
  - apply Hbool.
  - apply Hnum.
  - apply Hstr.
  - apply Harr. induction l as [|x l IHl]; constructor; [apply IH | exact IHl].
  - apply Hobj. induction ms as [|[k x] ms IHms]; constructor; [apply IH | exact IHms].
Qed.

Lemma length_newline_indent (lvl : nat) :
  (1 <= String.length (Json.newline_indent lvl))%nat.
Proof. unfold Json.newline_indent. simpl. lia. Qed.

(** The text of a value has at least one character for each of its nodes. *)
Lemma nodes_le_length (v : Json.json) :
  Json.plain v = true ->
  forall lvl, (Json.nodes v <= String.length (Json.dumps_at lvl v))%nat.
Proof.
  induction v as [|[]|n|s|l IH|ms IH] using json_induction; intros Hp lvl;
    try discriminate; try (simpl; lia).
  - destruct l as [|x xs]; [simpl; lia|].
    apply Forall_cons in IH as [IHx IHxs].
    simpl in Hp. apply andb_prop in Hp as [Hx Hxs].
    simpl. rewrite !text_length_app.
    pose proof (length_newline_indent (S lvl)). specialize (IHx Hx (S lvl)).
    enough (fold_right (fun x n => S (Json.nodes x + n)) 0 xs <=
            String.length
              (fold_right
                 (fun y acc =>
                    "," +:+ Json.newline_indent (S lvl) +:+ Json.dumps_at (S lvl) y +:+ acc)
                 (Json.newline_indent lvl +:+ "]") xs))%nat by (simpl; lia).
    clear -IHxs Hxs H. induction xs as [|y ys IHys]; simpl; [lia|].
    apply Forall_cons in IHxs as [IHy IHxs].
    simpl in Hxs. apply andb_prop in Hxs as [Hy Hys].
    rewrite !text_length_app. specialize (IHy Hy (S lvl)). specialize (IHys IHxs Hys).
    simpl. lia.
  - destruct ms as [|[k x] ms]; [simpl; lia|].
    apply Forall_cons in IH as [IHx IHms].
    simpl in Hp. apply andb_prop in Hp as [Hx Hms].
    simpl. rewrite !text_length_app.
    pose proof (length_newline_indent (S lvl)). specialize (IHx Hx (S lvl)).
    enough (fold_right (fun m n => S (Json.nodes (snd m) + n)) 0 ms <=
            String.length
              (fold_right
                 (fun m acc =>
                    "," +:+ Json.newline_indent (S lvl) +:+ Json.quote (fst m) +:+ ": " +:+
                    Json.dumps_at (S lvl) (snd m) +:+ acc)
                 (Json.newline_indent lvl +:+ "}") ms))%nat by (simpl in *; lia).
    clear -IHms Hms H. induction ms as [|[k y] ms IHm]; simpl; [lia|].
    apply Forall_cons in IHms as [IHy IHms].
    simpl in Hms. apply andb_prop in Hms as [Hy Hms].
    rewrite !text_length_app. specialize (IHy Hy (S lvl)). specialize (IHm IHms Hms).
    simpl in *. lia.
Qed.

(** [json.loads] reads the text of [json.dumps] back to the value. *)
Lemma loads_dumps (v : Json.json) :
  Json.plain v = true -> Json.loads (Json.dumps v) = Some v.
Proof.
  intros Hp. unfold Json.loads, Json.dumps.
  assert (Hskip : Json.skip_ws (Json.dumps_at 0 v) = Json.dumps_at 0 v).
  { pose proof (skip_ws_starts_value _ "" (dumps_at_starts_value 0 v Hp)) as H.
    rewrite text_app_nil_r in H. exact H. }
  assert (Hscan : Json.scan_value (S (String.length (Json.dumps_at 0 v)))
                    (Json.dumps_at 0 v) = Some (v, "")).
  { destruct (scan_dumped (S (String.length (Json.dumps_at 0 v)))) as [H _].
    specialize (H v 0%nat "" Hp). rewrite text_app_nil_r in H. apply H.
    pose proof (nodes_le_length v Hp 0). lia. }
  rewrite Hskip, Hscan. reflexivity.
Qed.

(** ** The text written is well-formed UTF-8 *)

Lemma utf8_run_app (st : Utf8.state) (a b : string) :
  Utf8.run st (a +:+ b) =
  match Utf8.run st a with
  | Some st' => Utf8.run st' b
  | None => None
  end.
Proof.
  revert st. induction a as [|c a IH]; intros st; [reflexivity|].
  rewrite text_app_cons. simpl. destruct (Utf8.step st c); [apply IH | reflexivity].
Qed.

Lemma utf8_valid_run (s : string) :
  Utf8.valid s = true <-> Utf8.run Utf8.Start s = Some Utf8.Start.
Proof.
  unfold Utf8.valid. destruct (Utf8.run Utf8.Start s) as [[]|]; split; congruence.
Qed.

Lemma utf8_valid_app (a b : string) :
  Utf8.valid a = true -> Utf8.valid b = true -> Utf8.valid (a +:+ b) = true.
Proof.
  rewrite !utf8_valid_run. intros Ha Hb. rewrite utf8_run_app, Ha. exact Hb.
Qed.

Lemma utf8_valid_cons_ascii (c : ascii) (s : string) :
  (N_of_ascii c < 128)%N -> Utf8.valid s = true -> Utf8.valid (String c s) = true.
Proof.
  rewrite !utf8_valid_run. intros Hc Hs. simpl.
  apply N.ltb_lt in Hc. rewrite Hc. exact Hs.
Qed.

Lemma utf8_step_proper (st st' : Utf8.state) (c : ascii) :
  Utf8.step st c = Some st' -> Utf8.proper st'.
Proof.
  unfold Utf8.step. destruct st as [|lo hi more].
  - repeat match goal with
           | |- context [if ?b then _ else _] => destruct b
           end; intros [= <-]; simpl; lia.
  - destruct (_ && _); [|discriminate]. intros [= <-].
    destruct more; simpl; lia.
Qed.

Lemma utf8_run_tail_ascii (lo hi : N) (more : nat) (c : ascii) (s : string) :
  (128 <= lo)%N -> (N_of_ascii c < 128)%N ->
  Utf8.run (Utf8.Tail lo hi more) (String c s) = None.
Proof.
  intros Hlo Hc. simpl.
  replace (lo <=? N_of_ascii c)%N with false by (symmetry; apply N.leb_gt; lia).
  reflexivity.
Qed.

(** An escape is read by the decoder as the character that it stands for. *)
Lemma utf8_run_escape_char (st : Utf8.state) (c : ascii) (t : string) :
  Utf8.proper st ->
  Utf8.run st (Json.escape_char c +:+ t) = Utf8.run st (String c t).
Proof.
  intros Hst.
  destruct c as [[] [] [] [] [] [] [] []]; try reflexivity;
    (destruct st as [|lo hi more]; [reflexivity|]);
    (transitivity (@None Utf8.state); [|symmetry];
     (apply utf8_run_tail_ascii; [exact Hst | reflexivity])).
Qed.

Lemma utf8_run_escape (s t : string) :
  forall st, Utf8.proper st ->
  Utf8.run st (Json.escape s +:+ t) = Utf8.run st (s +:+ t).
Proof.
  induction s as [|c s IH]; intros st Hst; [reflexivity|].
  simpl Json.escape. rewrite text_app_assoc, utf8_run_escape_char by exact Hst.
  rewrite text_app_cons. simpl.
  destruct (Utf8.step st c) as [st'|] eqn:Hstep; [|reflexivity].
  apply IH. eapply utf8_step_proper, Hstep.
Qed.

Lemma utf8_valid_quote (s : string) :
  Utf8.valid s = true -> Utf8.valid (Json.quote s) = true.
Proof.
  intros Hs. unfold Json.quote.
  apply utf8_valid_cons_ascii; [reflexivity|].
  apply utf8_valid_run. rewrite utf8_run_escape by exact I.
  apply utf8_valid_run in Hs. rewrite utf8_run_app, Hs. reflexivity.
Qed.

Lemma utf8_valid_spaces (n : nat) : Utf8.valid (Text.spaces n) = true.
Proof.
  induction n as [|n IH]; [reflexivity|].
  simpl. apply utf8_valid_cons_ascii; [reflexivity | exact IH].
Qed.

Lemma utf8_valid_newline_indent (lvl : nat) : Utf8.valid (Json.newline_indent lvl) = true.
Proof.
  unfold Json.newline_indent.
  apply utf8_valid_cons_ascii; [reflexivity | apply utf8_valid_spaces].
Qed.

Ltac utf8_split :=
  repeat match goal with
         | |- Utf8.valid (_ +:+ _) = true => apply utf8_valid_app
         end.

Create HintDb utf8.
#[local] Hint Resolve utf8_valid_app utf8_valid_quote utf8_valid_newline_indent : utf8.

Lemma utf8_valid_dumps_at (v : Json.json) :
  Json.texts_valid v = true -> forall lvl, Utf8.valid (Json.dumps_at lvl v) = true.
Proof.
  induction v as [|[]|n|s|l IH|ms IH] using json_induction; intros Hv lvl;
    try reflexivity.
  - exact Hv.
  - apply utf8_valid_quote, Hv.
  - destruct l as [|x xs]; [reflexivity|].
    apply Forall_cons in IH as [IHx IHxs].
    simpl in Hv. apply andb_prop in Hv as [Hx Hxs].
    simpl. utf8_split; auto with utf8.
    clear -IHxs Hxs. induction xs as [|y ys IHys]; simpl.
    + utf8_split; auto with utf8.
    + apply Forall_cons in IHxs as [IHy IHxs].
      simpl in Hxs. apply andb_prop in Hxs as [Hy Hys].
      utf8_split; auto with utf8.
  - destruct ms as [|[k x] ms]; [reflexivity|].
    apply Forall_cons in IH as [IHx IHms].
    simpl in Hv. apply andb_prop in Hv as [Hkx Hms]. apply andb_prop in Hkx as [Hk Hx].
    simpl. utf8_split; auto with utf8.
    clear -IHms Hms. induction ms as [|[k' y] ms IHm]; simpl.
    + utf8_split; auto with utf8.
    + apply Forall_cons in IHms as [IHy IHms].
      simpl in Hms. apply andb_prop in Hms as [Hky Hms]. apply andb_prop in Hky as [Hk' Hy].
      utf8_split; auto with utf8.
Qed.

(** ** The document as a value *)

Lemma plain_event_to_json (e : Store.event) : Json.plain (Store.event_to_json e) = true.
Proof. reflexivity. Qed.

Lemma plain_day_to_json (l : list Store.event) : Json.plain (Store.day_to_json l) = true.
Proof. simpl. induction l as [|e l IH]; [reflexivity | exact IH]. Qed.

Lemma plain_month_to_json (m : Store.month) : Json.plain (Store.month_to_json m) = true.
Proof.
  unfold Store.month_to_json. simpl.
  induction (map_to_list m) as [|p l IH]; [reflexivity|].
  simpl. rewrite IH, andb_true_r. apply (plain_day_to_json p.2).
Qed.

Lemma plain_to_json (d : Store.document) : Json.plain (Store.to_json d) = true.
Proof.
  unfold Store.to_json. simpl.
  induction (map_to_list d) as [|p l IH]; [reflexivity|].
  simpl. rewrite IH, andb_true_r. apply plain_month_to_json.
Qed.

Lemma texts_valid_event_to_json (e : Store.event) :
  Store.event_wf e = true -> Json.texts_valid (Store.event_to_json e) = true.
Proof.
  unfold Store.event_wf. destruct e as [t ds ts]. simpl.
  intros H. apply andb_prop in H as [H Hts]. apply andb_prop in H as [Ht Hds].
  rewrite Ht, Hds, Hts. reflexivity.
Qed.

Lemma texts_valid_day_to_json (l : list Store.event) :
  forallb Store.event_wf l = true -> Json.texts_valid (Store.day_to_json l) = true.
Proof.
  simpl. induction l as [|e l IH]; [reflexivity|].
  simpl. intros H. apply andb_prop in H as [He Hl].
  rewrite IH by exact Hl. rewrite andb_true_r. apply texts_valid_event_to_json, He.
Qed.

Lemma texts_valid_month_to_json (m : Store.month) :
  Store.month_wf m = true -> Json.texts_valid (Store.month_to_json m) = true.
Proof.
  unfold Store.month_wf, Store.month_to_json. simpl.
  induction (map_to_list m) as [|p l IH]; [reflexivity|].
  simpl. intros H. apply andb_prop in H as [Hp Hl]. apply andb_prop in Hp as [Hk Hv].
  rewrite IH by exact Hl. rewrite Hk, andb_true_r. apply texts_valid_day_to_json, Hv.
Qed.

Lemma texts_valid_to_json (d : Store.document) :
  Store.document_wf d = true -> Json.texts_valid (Store.to_json d) = true.
Proof.
  unfold Store.document_wf, Store.to_json. simpl.
  induction (map_to_list d) as [|p l IH]; [reflexivity|].
  simpl. intros H. apply andb_prop in H as [Hp Hl]. apply andb_prop in Hp as [Hk Hv].
  rewrite IH by exact Hl. rewrite Hk, andb_true_r. apply texts_valid_month_to_json, Hv.
Qed.

(** The value of a document is read as the document. *)
Lemma dict_of_map_to_list {A} (m : gmap string A) : Store.dict_of (map_to_list m) = m.
Proof.
  unfold Store.dict_of.
  rewrite <- (list_to_map_to_list m) at 2.
  apply list_to_map_proper.
  - rewrite fmap_reverse, reverse_Permutation. apply NoDup_fst_map_to_list.
  - apply reverse_Permutation.
Qed.

Lemma as_event_to_json (e : Store.event) : Store.as_event (Store.event_to_json e) = Some e.
Proof. destruct e as [t ds ts]. reflexivity. Qed.

Lemma as_day_to_json (l : list Store.event) : Store.as_day (Store.day_to_json l) = Some l.
Proof.
  unfold Store.as_day, Store.day_to_json.
  apply mapM_fmap_Some. exact as_event_to_json.
Qed.

Lemma as_month_to_json (m : Store.month) : Store.as_month (Store.month_to_json m) = Some m.
Proof.
  unfold Store.as_month, Store.month_to_json.
  rewrite (mapM_fmap_Some _ (fun p : string * list Store.event => (p.1, Store.day_to_json p.2))).
  - simpl. rewrite dict_of_map_to_list. reflexivity.
  - intros [k l].
    change (pair k <$> Store.as_day (Store.day_to_json l) = Some (k, l)).
    rewrite as_day_to_json. reflexivity.
Qed.

Lemma as_document_to_json (d : Store.document) :
  Store.as_document (Store.to_json d) = Some d.
Proof.
  unfold Store.as_document, Store.to_json.
  rewrite (mapM_fmap_Some _ (fun p : string * Store.month => (p.1, Store.month_to_json p.2))).
  - simpl. rewrite dict_of_map_to_list. reflexivity.
  - intros [k m].
    change (pair k <$> Store.as_month (Store.month_to_json m) = Some (k, m)).
    rewrite as_month_to_json. reflexivity.
Qed.

(** ** The pieces of the text and the write *)

Lemma concat_chunks_at (v : Json.json) :
  forall lvl, fold_right String.append "" (Json.chunks_at lvl v) = Json.dumps_at lvl v.
Proof.
  induction v as [|[]|n|s|l IH|ms IH] using json_induction; intros lvl;
    try (simpl; apply text_app_nil_r).
  - destruct l as [|x xs]; [reflexivity|].
    apply Forall_cons in IH as [IHx IHxs].
    assert (Hitem : forall buf y,
              (forall lvl, fold_right String.append "" (Json.chunks_at lvl y) =
                           Json.dumps_at lvl y) ->
              forall rest,
              fold_right String.append rest
                match y with
                | Json.JArr _ | Json.JObj _ => buf :: Json.chunks_at (S lvl) y
                | _ => [buf +:+ Json.dumps_at (S lvl) y]
                end = buf +:+ Json.dumps_at (S lvl) y +:+ rest).
    { intros buf y Hy rest.
      assert (Hgen : fold_right String.append rest (Json.chunks_at (S lvl) y) =
                     Json.dumps_at (S lvl) y +:+ rest).
      { rewrite <- (Hy (S lvl)). generalize (Json.chunks_at (S lvl) y).
        intros cs. induction cs as [|c cs IHcs]; [reflexivity|].
        simpl. rewrite IHcs, text_app_assoc. reflexivity. }
      destruct y; cbn [fold_right]; rewrite ?Hgen, ?text_app_assoc; reflexivity. }
    simpl Json.chunks_at. rewrite fold_right_app, (Hitem _ x IHx).
    simpl Json.dumps_at. rewrite !text_app_assoc. do 3 f_equal.
    clear IHx. induction xs as [|y ys IHys]; [reflexivity|].
    apply Forall_cons in IHxs as [IHy IHxs].
    simpl fold_right at 2. rewrite fold_right_app, (Hitem _ y IHy).
    simpl fold_right at 3. rewrite !text_app_assoc. do 3 f_equal.
    apply IHys, IHxs.
  - destruct ms as [|[k x] ms]; [reflexivity|].
    apply Forall_cons in IH as [IHx IHms]. simpl in IHx.
    assert (Hgen : forall y rest,
              (forall lvl, fold_right String.append "" (Json.chunks_at lvl y) =
                           Json.dumps_at lvl y) ->
              fold_right String.append rest (Json.chunks_at (S lvl) y) =
              Json.dumps_at (S lvl) y +:+ rest).
    { intros y rest Hy. rewrite <- (Hy (S lvl)). generalize (Json.chunks_at (S lvl) y).
      intros cs. induction cs as [|c cs IHcs]; [reflexivity|].
      simpl. rewrite IHcs, text_app_assoc. reflexivity. }
    simpl Json.chunks_at. simpl fold_right at 1.
    rewrite fold_right_app, (Hgen x _ IHx).
    simpl Json.dumps_at. rewrite ?text_app_assoc. do 5 f_equal.
    clear IHx. induction ms as [|[k' y] ms IHm]; [reflexivity|].
    apply Forall_cons in IHms as [IHy IHms]. simpl in IHy.
    simpl fold_right at 2. simpl fold_right at 1.
    rewrite fold_right_app, (Hgen y _ IHy).
    simpl fold_right at 3. rewrite ?text_app_assoc. do 5 f_equal.
    apply IHm, IHms.
Qed.

Lemma written_valid (chunks : list string) :
  Forall (fun c => Utf8.valid c = true) chunks ->
  Store.written chunks = (fold_right String.append "" chunks, true).
Proof.
  induction 1 as [|c cs Hc _ IH]; [reflexivity|].
  simpl. rewrite Hc, IH. reflexivity.
Qed.

Lemma chunks_at_valid (v : Json.json) :
  Json.texts_valid v = true ->
  forall lvl, Forall (fun c => Utf8.valid c = true) (Json.chunks_at lvl v).
Proof.
  induction v as [|[]|n|s|l IH|ms IH] using json_induction; intros Hv lvl;
    try (repeat constructor; fail).
  - repeat constructor. exact Hv.
  - repeat constructor. apply utf8_valid_quote, Hv.
  - destruct l as [|x xs]; [repeat constructor|].
    assert (Hitem : forall buf y,
              Utf8.valid buf = true -> Json.texts_valid y = true ->
              (Json.texts_valid y = true -> forall lvl,
                 Forall (fun c => Utf8.valid c = true) (Json.chunks_at lvl y)) ->
              Forall (fun c => Utf8.valid c = true)
                match y with
                | Json.JArr _ | Json.JObj _ => buf :: Json.chunks_at (S lvl) y
                | _ => [buf +:+ Json.dumps_at (S lvl) y]
                end).
    { intros buf y Hbuf Hy IHy.
      pose proof (utf8_valid_dumps_at y Hy (S lvl)) as Hd.
      destruct y; try (constructor; [apply utf8_valid_app; assumption | constructor]);
        (constructor; [exact Hbuf | apply IHy, Hy]). }
    apply Forall_cons in IH as [IHx IHxs].
    simpl in Hv. apply andb_prop in Hv as [Hx Hxs].
    simpl Json.chunks_at. apply Forall_app. split.
    { apply Hitem; auto with utf8. }
    clear -IHxs Hxs Hitem. induction xs as [|y ys IHys]; simpl.
    + repeat constructor. apply utf8_valid_newline_indent.
    + apply Forall_cons in IHxs as [IHy IHxs].
      simpl in Hxs. apply andb_prop in Hxs as [Hy Hys].
      apply Forall_app. split; [apply Hitem; auto with utf8 | apply IHys; assumption].
  - destruct ms as [|[k x] ms]; [repeat constructor|].
    apply Forall_cons in IH as [IHx IHms]. simpl in IHx.
    simpl in Hv. apply andb_prop in Hv as [Hkx Hms]. apply andb_prop in Hkx as [Hk Hx].
    simpl Json.chunks_at.
    repeat (apply Forall_cons; split; [auto with utf8|]).
    apply Forall_app. split; [apply IHx, Hx|].
    clear -IHms Hms. induction ms as [|[k' y] ms IHm]; simpl.
    + repeat constructor. apply utf8_valid_newline_indent.
    + apply Forall_cons in IHms as [IHy IHms]. simpl in IHy.
      simpl in Hms. apply andb_prop in Hms as [Hky Hms]. apply andb_prop in Hky as [Hk' Hy].
      repeat (apply Forall_cons; split; [auto with utf8|]).
      apply Forall_app. split; [apply IHy, Hy | apply IHm; assumption].
Qed.

(** A document whose texts are well-formed is written whole. *)
Lemma save_events_ok (d : Store.document) (s : Store.state) :
  Store.document_wf d = true ->
  Store.save_events d s =
    (Store.Ret tt,
     Store.State (Store.events s) (Some (Json.dumps (Store.to_json d)))
       (S (Store.writes s)) (Store.clock s) (Store.shown s)).
Proof.
  intros Hwf. unfold Store.save_events, Store.json_dump.
  rewrite written_valid by apply chunks_at_valid, texts_valid_to_json, Hwf.
  rewrite concat_chunks_at. reflexivity.
Qed.

(** The write fails on a text that is not well-formed only. *)
Lemma save_events_raises (d : Store.document) (s : Store.state) :
  (Store.save_events d s).1 <> Store.Ret tt -> Store.document_wf d = false.
Proof.
  intros Hs. destruct (Store.document_wf d) eqn:Hwf; [|reflexivity].
  rewrite save_events_ok in Hs by exact Hwf. contradiction.
Qed.

(** The end of a handler on a document whose texts are well-formed: the
    file has the text of the document, the message is shown and the script
    is rerun. *)
Lemma finish_ok (msg : Store.message) (s : Store.state) :
  Store.document_wf (Store.events s) = true ->
  Store.finish msg s =
    (Store.Raise Store.RerunException,
     Store.State (Store.events s) (Some (Json.dumps (Store.to_json (Store.events s))))
       (S (Store.writes s)) (Store.clock s) (msg :: Store.shown s)).
Proof.
  intros Hwf. rewrite finish_run, save_events_ok by exact Hwf. reflexivity.
Qed.

(** The write either brings the whole text to the file, or it stops
    before a piece that is not well-formed. *)
Lemma written_cases (chunks : list string) :
  Store.written chunks = (fold_right String.append "" chunks, true) \/
  exists text rest,
    Store.written chunks = (text, false) /\ rest <> "" /\
    fold_right String.append "" chunks = text +:+ rest.
Proof.
  induction chunks as [|c cs IH]; [left; reflexivity|].
  simpl. destruct (Utf8.valid c) eqn:Hc.
  - destruct IH as [->|(text & rest & -> & Hrest & ->)]; [left; reflexivity|].
    right. exists (c +:+ text), rest. rewrite text_app_assoc. auto.
  - right. exists "", (c +:+ fold_right String.append "" cs).
    split; [reflexivity|]. split; [|reflexivity].
    destruct c; [discriminate Hc | discriminate].
Qed.

Lemma save_events_cases (d : Store.document) (s : Store.state) :
  Store.save_events d s =
    (Store.Ret tt,
     Store.State (Store.events s) (Some (Json.dumps (Store.to_json d)))
       (S (Store.writes s)) (Store.clock s) (Store.shown s)) \/
  Store.document_wf d = false /\
  exists text rest,
    rest <> "" /\ Json.dumps (Store.to_json d) = text +:+ rest /\
    Store.save_events d s =
      (Store.Raise Store.UnicodeEncodeError,
       Store.State (Store.events s) (Some text) (S (Store.writes s)) (Store.clock s)
         (Store.shown s)).
Proof.
  destruct (written_cases (Json.chunks_at 0 (Store.to_json d)))
    as [Hw|(text & rest & Hw & Hrest & Hcut)]; rewrite concat_chunks_at in *.
  - left. unfold Store.save_events, Store.json_dump. rewrite Hw. reflexivity.
  - assert (Hrun : Store.save_events d s =
      (Store.Raise Store.UnicodeEncodeError,
       Store.State (Store.events s) (Some text) (S (Store.writes s)) (Store.clock s)
         (Store.shown s))).
    { unfold Store.save_events, Store.json_dump. rewrite Hw. reflexivity. }
    right. split; [|exists text, rest; auto].
    apply (save_events_raises d s). rewrite Hrun. discriminate.
Qed.

(** The end of a handler, whatever the texts of the document: when the
    write fails, neither is the message shown nor the script rerun, and
    the file is left with a part of the text. *)
Lemma finish_cases (msg : Store.message) (s : Store.state) :
  Store.finish msg s =
    (Store.Raise Store.RerunException,
     Store.State (Store.events s) (Some (Json.dumps (Store.to_json (Store.events s))))
       (S (Store.writes s)) (Store.clock s) (msg :: Store.shown s)) \/
  Store.document_wf (Store.events s) = false /\
  exists text rest,
    rest <> "" /\ Json.dumps (Store.to_json (Store.events s)) = text +:+ rest /\
    Store.finish msg s =
      (Store.Raise Store.UnicodeEncodeError,
       Store.State (Store.events s) (Some text) (S (Store.writes s)) (Store.clock s)
         (Store.shown s)).
Proof.
  rewrite finish_run.
  destruct (save_events_cases (Store.events s) s)
    as [->|(Hwf & text & rest & Hrest & Hcut & ->)]; [left; reflexivity|].
  right. split; [exact Hwf|]. exists text, rest. auto.
Qed.

(** ** Saving and loading *)

(** C2, for the documents whose texts are well-formed (they have no lone
    surrogate): after such a document is saved, loading returns the value
    of that document and shows no message; the value is read as the very
    document, whatever characters its texts have. *)
Theorem C2_save_then_load (d : Store.document) (s : Store.state) :
  Store.document_wf d = true ->
  (Store.save_events d s).1 = Store.Ret tt /\
  Store.load_events (Store.save_events d s).2 =
    (Store.Ret (Store.to_json d), (Store.save_events d s).2) /\
  Store.as_document (Store.to_json d) = Some d.
Proof.
  intros Hwf. rewrite save_events_ok by exact Hwf. simpl.
  split; [reflexivity|]. split; [|apply as_document_to_json].
  apply (load_events_parsed _ (Json.dumps (Store.to_json d))).
  - reflexivity.
  - apply utf8_valid_dumps_at, texts_valid_to_json, Hwf.
  - apply loads_dumps, plain_to_json.
Qed.

Lemma C2_save_then_load_witness :
  (Store.save_events Sample.one_meeting Sample.fresh).1 = Store.Ret tt /\
  Store.load_events (Store.save_events Sample.one_meeting Sample.fresh).2 =
    (Store.Ret (Store.to_json Sample.one_meeting),
     (Store.save_events Sample.one_meeting Sample.fresh).2) /\
  Store.as_document (Store.to_json Sample.one_meeting) = Some Sample.one_meeting.
Proof.
  apply (C2_save_then_load Sample.one_meeting Sample.fresh).
  vm_compute. reflexivity.
Defined.

(** C2 does not hold of every document.  [load_events] returns a document
    with a lone surrogate in a title for a file of ASCII text; saving that
    document raises [UnicodeEncodeError] and leaves the file cut before
    the title; loading then finds a damaged file, shows the error message
    and returns the empty dict. *)
Lemma C2_save_then_load_counterexample :
  Store.load_events (Store.State ∅ (Some Sample.escaped_file) 0 900 []) =
    (Store.Ret (Store.to_json Sample.unpaired),
     Store.State ∅ (Some Sample.escaped_file) 0 900 []) /\
  Store.as_document (Store.to_json Sample.unpaired) = Some Sample.unpaired /\
  Store.save_events Sample.unpaired Sample.fresh =
    (Store.Raise Store.UnicodeEncodeError,
     Store.State ∅
       (Some (String "{" (String "010" ("    " +:+ Json.quote "2024-03" +:+ ": {" +:+
              String "010" ("        " +:+ Json.quote "2024-03-15" +:+ ": [" +:+
              String "010" ("            {" +:+
              String "010" ("                " +:+ Json.quote "title" +:+ ": ")))))))
       1 900 []) /\
  (Store.load_events (Store.save_events Sample.unpaired Sample.fresh).2).1 =
    Store.Ret (Json.JObj []) /\
  Store.shown (Store.load_events (Store.save_events Sample.unpaired Sample.fresh).2).2 =
    [Store.Error "イベントファイルが破損しています。空のデータで開始します。"] /\
  Store.as_document (Json.JObj []) = Some ∅ /\
  Sample.unpaired <> ∅.
Proof.
  split; [vm_compute; reflexivity|].
  split; [apply as_document_to_json|].
  split; [vm_compute; reflexivity|].
  split; [vm_compute; reflexivity|].
  split; [vm_compute; reflexivity|].
  split; [reflexivity|].
  apply insert_non_empty.
Qed.

Example sample_file :
  Json.dumps (Store.to_json Sample.one_meeting) =
  String "{" (String "010" ("    " +:+ Json.quote "2024-03" +:+ ": {" +:+
  String "010" ("        " +:+ Json.quote "2024-03-15" +:+ ": [" +:+
  String "010" ("            {" +:+
  String "010" ("                " +:+ Json.quote "title" +:+ ": " +:+ Json.quote "会議" +:+ "," +:+
  String "010" ("                " +:+ Json.quote "description" +:+ ": " +:+
                Json.quote "朝のスタンドアップ" +:+ "," +:+
  String "010" ("                " +:+ Json.quote "timestamp" +:+ ": " +:+
                Json.quote "2024-03-15T00:15:00" +:+
  String "010" ("            }" +:+
  String "010" ("        ]" +:+
  String "010" ("    }" +:+
  String "010" "}")))))))))).
Proof. vm_compute. reflexivity. Qed.

(** ** The fuel of the reader

    A value that is read with some fuel is read with every fuel from the
    number of characters that it takes: the result of [loads] does not
    depend on the fuel. *)

Lemma length_skip_ws (s : string) :
  (String.length (Json.skip_ws s) <= String.length s)%nat.
Proof.
  induction s as [|c s IH]; simpl; [lia|].
  destruct (Json.is_ws c); simpl; lia.
Qed.

Lemma length_with_prefix (p : string) (o : option (string * string)) t r :
  Json.with_prefix p o = Some (t, r) -> exists t', o = Some (t', r).
Proof. destruct o as [[t' r']|]; simpl; [intros [= _ <-]; eauto | discriminate]. Qed.

Lemma length_scan_string (s t r : string) :
  Json.scan_string s = Some (t, r) -> (String.length r < String.length s)%nat.
Proof.
  remember (String.length s) as n eqn:Hn. revert s t r Hn.
  induction n as [n IH] using lt_wf_ind. intros s t r -> H.
  destruct s as [|c s1]; [discriminate|]. simpl in H.
  destruct (Ascii.eqb c "034"); [injection H as _ <-; simpl; lia|].
  destruct (Ascii.eqb c "\").
  - destruct s1 as [|e s2]; [discriminate|].
    destruct (Ascii.eqb e "u").
    + destruct s2 as [|h1 [|h2 [|h3 [|h4 s3]]]]; try discriminate.
      destruct (Json.hex4 h1 h2 h3 h4) as [u|]; [|discriminate].
      assert (Hs3 : forall t r, Json.scan_string s3 = Some (t, r) ->
                      (String.length r < String.length s3)%nat).
      { intros t' r' H'. eapply (IH (String.length s3)); [simpl; lia | reflexivity | exact H']. }
      assert (Hlone : forall p, Json.with_prefix p (Json.scan_string s3) = Some (t, r) ->
                        (String.length r < String.length s3)%nat).
      { intros p Hp. apply length_with_prefix in Hp as [t' Hp]. eapply Hs3, Hp. }
      destruct (Json.is_high_surrogate u).
      * destruct s3 as [|b1 [|b2 s4]];
          try (apply Hlone in H; simpl in *; lia).
        destruct (Ascii.eqb b1 "\" && Ascii.eqb b2 "u");
          [|apply Hlone in H; simpl in *; lia].
        destruct s4 as [|l1 [|l2 [|l3 [|l4 s5]]]]; try discriminate.
        destruct (Json.hex4 l1 l2 l3 l4) as [u2|]; [|discriminate].
        destruct (Json.is_low_surrogate u2); [|apply Hlone in H; simpl in *; lia].
        apply length_with_prefix in H as [t' H].
        eapply (IH (String.length s5)) in H; [|simpl; lia|reflexivity]. simpl. lia.
      * apply Hlone in H. simpl in *. lia.
    + destruct (Json.unescape e); [|discriminate].
      apply length_with_prefix in H as [t' H].
      eapply (IH (String.length s2)) in H; [|simpl; lia|reflexivity]. simpl. lia.
  - destruct (N_of_ascii c <? 32)%N; [discriminate|].
    apply length_with_prefix in H as [t' H].
    eapply (IH (String.length s1)) in H; [|simpl; lia|reflexivity]. simpl. lia.
Qed.

Lemma length_strip_prefix (p s r : string) :
  Text.strip_prefix p s = Some r ->
  String.length s = (String.length p + String.length r)%nat.
Proof.
  revert s. induction p as [|a p IH]; intros s H; simpl in *.
  - injection H as <-. reflexivity.
  - destruct s as [|b s]; [discriminate|].
    destruct (Ascii.eqb a b); [|discriminate]. simpl. rewrite (IH s H). reflexivity.
Qed.

Lemma length_scan_digits (s : string) :
  (String.length (Json.scan_digits s).2 <= String.length s)%nat.
Proof.
  induction s as [|c s IH]; simpl; [lia|].
  destruct (Json.is_digit c); [|simpl; lia].
  destruct (Json.scan_digits s) as [ds r]. simpl in *. lia.
Qed.

Lemma length_scan_digits1 (s ds r : string) :
  Json.scan_digits1 s = Some (ds, r) -> (String.length r <= String.length s)%nat.
Proof.
  unfold Json.scan_digits1. pose proof (length_scan_digits s) as H.
  destruct (Json.scan_digits s) as [[|d ds'] r']; [discriminate|].
  intros [= _ <-]. exact H.
Qed.

Lemma length_scan_fraction (s : string) :
  (String.length (Json.scan_fraction s).2 <= String.length s)%nat.
Proof.
  unfold Json.scan_fraction. destruct s as [|c s']; [simpl; lia|].
  destruct (Ascii.eqb c "."); [|simpl; lia].
  destruct (Json.scan_digits1 s') as [[ds r]|] eqn:E; [|simpl; lia].
  apply length_scan_digits1 in E. simpl. lia.
Qed.

Lemma length_scan_exponent (s : string) :
  (String.length (Json.scan_exponent s).2 <= String.length s)%nat.
Proof.
  unfold Json.scan_exponent. destruct s as [|c s']; [simpl; lia|].
  destruct (Ascii.eqb c "e" || Ascii.eqb c "E"); [|simpl; lia].
  destruct s' as [|g s'']; [simpl; lia|].
  destruct (Ascii.eqb g "+" || Ascii.eqb g "-").
  - destruct (Json.scan_digits1 s'') as [[ds r]|] eqn:E; [|simpl; lia].
    apply length_scan_digits1 in E. simpl. lia.
  - destruct (Json.scan_digits1 (String g s'')) as [[ds r]|] eqn:E; [|simpl; lia].
    apply length_scan_digits1 in E. simpl in *. lia.
Qed.

Lemma length_scan_number (s n r : string) :
  Json.scan_number s = Some (n, r) -> (String.length r < String.length s)%nat.
Proof.
  unfold Json.scan_number.
  set (p := match s with
            | String c s' => if Ascii.eqb c "-" then ("-", s') else ("", s)
            | EmptyString => ("", s)
            end).
  assert (Hp : (String.length p.2 <= String.length s)%nat).
  { subst p. destruct s as [|c s']; [simpl; lia|].
    destruct (Ascii.eqb c "-"); simpl; lia. }
  destruct p as [sign s0]. simpl in Hp.
  destruct s0 as [|d s1]; [discriminate|].
  destruct (Json.is_digit d); [|discriminate].
  set (q := if Ascii.eqb d "0" then ("0", s1)
            else let (ds, rest) := Json.scan_digits s1 in (String d ds, rest)).
  assert (Hq : (String.length q.2 <= String.length s1)%nat).
  { subst q. destruct (Ascii.eqb d "0"); [simpl; lia|].
    pose proof (length_scan_digits s1). destruct (Json.scan_digits s1). simpl in *. lia. }
  destruct q as [int_part s2]. simpl in Hq.
  pose proof (length_scan_fraction s2) as Hf.
  destruct (Json.scan_fraction s2) as [frac s3]. simpl in Hf.
  pose proof (length_scan_exponent s3) as He.
  destruct (Json.scan_exponent s3) as [ex s4]. simpl in He.
  intros [= _ <-]. simpl in *. lia.
Qed.

Lemma length_scan_constant (s : string) v r :
  Json.scan_constant s = Some (v, r) -> (String.length r < String.length s)%nat.
Proof.
  unfold Json.scan_constant.
  repeat match goal with
         | |- context [Text.strip_prefix ?p s] =>
             let E := fresh "E" in
             destruct (Text.strip_prefix p s) eqn:E;
             [apply length_strip_prefix in E; intros [= _ <-]; simpl in E; lia|]
         | |- context [Json.scan_number s] =>
             let E := fresh "E" in
             destruct (Json.scan_number s) as [[? ?]|] eqn:E;
             [apply length_scan_number in E; intros [= _ <-]; exact E|]
         end.
  discriminate.
Qed.

Lemma scan_value_step (f : nat) (s : string) :
  Json.scan_value (S f) s =
  match s with
  | String c s' =>
      if Ascii.eqb c "034" then
        match Json.scan_string s' with
        | Some (t, r) => Some (Json.JStr t, r)
        | None => None
        end
      else if Ascii.eqb c "{" then
        match Json.skip_ws s' with
        | String c1 r1 =>
            if Ascii.eqb c1 "}" then Some (Json.JObj [], r1)
            else
              match Json.scan_members f (String c1 r1) with
              | Some (ms, r) => Some (Json.JObj ms, r)
              | None => None
              end
        | EmptyString => None
        end
      else if Ascii.eqb c "[" then
        match Json.skip_ws s' with
        | String c1 r1 =>
            if Ascii.eqb c1 "]" then Some (Json.JArr [], r1)
            else
              match Json.scan_items f (String c1 r1) with
              | Some (xs, r) => Some (Json.JArr xs, r)
              | None => None
              end
        | EmptyString => None
        end
      else Json.scan_constant s
  | EmptyString => None
  end.
Proof. destruct s; reflexivity. Qed.

Lemma scan_members_step' (f : nat) (s : string) :
  Json.scan_members (S f) s =
  match s with
  | String q t =>
      if Ascii.eqb q "034" then
        match Json.scan_string t with
        | Some (k, r) =>
            match Json.skip_ws r with
            | String c r1 =>
                if Ascii.eqb c ":" then
                  match Json.scan_value f (Json.skip_ws r1) with
                  | Some (x, r2) =>
                      match Json.skip_ws r2 with
                      | String d r3 =>
                          if Ascii.eqb d "}" then Some ([(k, x)], r3)
                          else if Ascii.eqb d "," then
                            match Json.scan_members f (Json.skip_ws r3) with
                            | Some (ms, r4) => Some ((k, x) :: ms, r4)
                            | None => None
                            end
                          else None
                      | EmptyString => None
                      end
                  | None => None
                  end
                else None
            | EmptyString => None
            end
        | None => None
        end
      else None
  | EmptyString => None
  end.
Proof. destruct s; reflexivity. Qed.

Lemma scan_fuel_free (f : nat) :
  Json.fuel_free Json.scan_value f /\ Json.fuel_free Json.scan_items f /\
  Json.fuel_free Json.scan_members f.
Proof.
  induction f as [|f (IHv & IHi & IHm)]; [repeat split; discriminate|].
  split; [|split].
  - intros s v r H. rewrite scan_value_step in H.
    destruct s as [|c s']; [discriminate|].
    assert (Hfuel : forall f', (String.length (String c s') - String.length r <= f')%nat ->
              (String.length r < String.length (String c s'))%nat ->
              exists f'', f' = S f'').
    { intros [|f''] H1 H2; [lia | eauto]. }
    destruct (Ascii.eqb c "034") eqn:Eq.
    { destruct (Json.scan_string s') as [[t r0]|] eqn:Es; [|discriminate].
      injection H as <- <-. apply length_scan_string in Es as Hl.
      split; [simpl; lia|]. intros f' Hf.
      destruct (Hfuel f' Hf) as [f'' ->]; [simpl; lia|].
      rewrite scan_value_step, Eq, Es. reflexivity. }
    destruct (Ascii.eqb c "{") eqn:Eo.
    { pose proof (length_skip_ws s') as Hws.
      destruct (Json.skip_ws s') as [|c1 r1] eqn:Ews; [discriminate|].
      destruct (Ascii.eqb c1 "}") eqn:Ec.
      - injection H as <- <-. simpl in *. split; [lia|]. intros f' Hf.
        destruct (Hfuel f' Hf) as [f'' ->]; [lia|].
        rewrite scan_value_step, Eq, Eo, Ews, Ec. reflexivity.
      - destruct (Json.scan_members f (String c1 r1)) as [[ms r0]|] eqn:Em; [|discriminate].
        injection H as <- <-. apply IHm in Em as [Hl Hmono].
        simpl in *. split; [lia|]. intros f' Hf.
        destruct (Hfuel f' Hf) as [f'' ->]; [lia|].
        rewrite scan_value_step, Eq, Eo, Ews, Ec, Hmono by lia. reflexivity. }
    destruct (Ascii.eqb c "[") eqn:Ea.
    { pose proof (length_skip_ws s') as Hws.
      destruct (Json.skip_ws s') as [|c1 r1] eqn:Ews; [discriminate|].
      destruct (Ascii.eqb c1 "]") eqn:Ec.
      - injection H as <- <-. simpl in *. split; [lia|]. intros f' Hf.
        destruct (Hfuel f' Hf) as [f'' ->]; [lia|].
        rewrite scan_value_step, Eq, Eo, Ea, Ews, Ec. reflexivity.
      - destruct (Json.scan_items f (String c1 r1)) as [[xs r0]|] eqn:Em; [|discriminate].
        injection H as <- <-. apply IHi in Em as [Hl Hmono].
        simpl in *. split; [lia|]. intros f' Hf.
        destruct (Hfuel f' Hf) as [f'' ->]; [lia|].
        rewrite scan_value_step, Eq, Eo, Ea, Ews, Ec, Hmono by lia. reflexivity. }
    apply length_scan_constant in H as Hl. split; [exact Hl|]. intros f' Hf.
    destruct (Hfuel f' Hf Hl) as [f'' ->].
    rewrite scan_value_step, Eq, Eo, Ea. exact H.
  - intros s xs r H. rewrite scan_items_step in H.
    destruct (Json.scan_value f s) as [[x r0]|] eqn:Ev; [|discriminate].
    apply IHv in Ev as [Hl0 Hmono0].
    pose proof (length_skip_ws r0) as Hws.
    destruct (Json.skip_ws r0) as [|c r1] eqn:Ews; [discriminate|].
    destruct (Ascii.eqb c "]") eqn:Ec.
    + injection H as <- <-. simpl in *. split; [lia|]. intros [|f''] Hf; [lia|].
      rewrite scan_items_step, Hmono0 by lia. rewrite Ews, Ec. reflexivity.
    + destruct (Ascii.eqb c ",") eqn:Ecomma; [|discriminate].
      pose proof (length_skip_ws r1) as Hws1.
      destruct (Json.scan_items f (Json.skip_ws r1)) as [[ys r2]|] eqn:Ei; [|discriminate].
      injection H as <- <-. apply IHi in Ei as [Hl1 Hmono1].
      simpl in *. split; [lia|]. intros [|f''] Hf; [lia|].
      rewrite scan_items_step, Hmono0 by lia. rewrite Ews, Ec, Ecomma, Hmono1 by lia.
      reflexivity.
  - intros s ms r H. rewrite scan_members_step' in H.
    destruct s as [|q t]; [discriminate|].
    destruct (Ascii.eqb q "034") eqn:Eq; [|discriminate].
    destruct (Json.scan_string t) as [[k r0]|] eqn:Es; [|discriminate].
    apply length_scan_string in Es as Hl0.
    pose proof (length_skip_ws r0) as Hws0.
    destruct (Json.skip_ws r0) as [|c r1] eqn:Ews0; [discriminate|].
    destruct (Ascii.eqb c ":") eqn:Ecolon; [|discriminate].
    pose proof (length_skip_ws r1) as Hws1.
    destruct (Json.scan_value f (Json.skip_ws r1)) as [[x r2]|] eqn:Ev; [|discriminate].
    apply IHv in Ev as [Hl2 Hmono2].
    pose proof (length_skip_ws r2) as Hws2.
    destruct (Json.skip_ws r2) as [|d r3] eqn:Ews2; [discriminate|].
    destruct (Ascii.eqb d "}") eqn:Ed.
    + injection H as <- <-. simpl in *. split; [lia|]. intros [|f''] Hf; [lia|].
      rewrite scan_members_step', Eq, Es, Ews0, Ecolon, Hmono2 by lia.
      rewrite Ews2, Ed. reflexivity.
    + destruct (Ascii.eqb d ",") eqn:Ecomma; [|discriminate].
      pose proof (length_skip_ws r3) as Hws3.
      destruct (Json.scan_members f (Json.skip_ws r3)) as [[ms' r4]|] eqn:Em; [|discriminate].
      injection H as <- <-. apply IHm in Em as [Hl4 Hmono4].
      simpl in *. split; [lia|]. intros [|f''] Hf; [lia|].
      rewrite scan_members_step', Eq, Es, Ews0, Ecolon, Hmono2 by lia.
      rewrite Ews2, Ed, Ecomma, Hmono4 by lia. reflexivity.
Qed.

(** A text that is read as a value with some fuel is read by [loads]. *)
Lemma loads_fuel (f : nat) (s r : string) (v : Json.json) :
  Json.scan_value f (Json.skip_ws s) = Some (v, r) -> Json.skip_ws r = "" ->
  Json.loads s = Some v.
Proof.
  intros H Hr. unfold Json.loads.
  destruct (scan_fuel_free f) as [Hv _]. apply Hv in H as [Hl Hmono].
  pose proof (length_skip_ws s).
  rewrite Hmono by lia. rewrite Hr. reflexivity.
Qed.

(** ** The run after an addition

    [st.rerun()] starts the script again, which loads the file that the
    addition has saved: the list then shown is that of the document in
    memory. *)

Lemma month_wf_lookup (m : Store.month) :
  Store.month_wf m = true <->
  forall k l, m !! k = Some l -> Utf8.valid k = true /\ forallb Store.event_wf l = true.
Proof.
  unfold Store.month_wf. rewrite forallb_forall. split.
  - intros H k l Hk. apply andb_prop. apply (H (k, l)).
    apply list_elem_of_In, elem_of_map_to_list, Hk.
  - intros H [k l] Hin. apply list_elem_of_In, elem_of_map_to_list in Hin.
    apply andb_true_intro, (H k l Hin).
Qed.

Lemma document_wf_lookup (d : Store.document) :
  Store.document_wf d = true <->
  forall k m, d !! k = Some m -> Utf8.valid k = true /\ Store.month_wf m = true.
Proof.
  unfold Store.document_wf. rewrite forallb_forall. split.
  - intros H k m Hk. apply andb_prop. apply (H (k, m)).
    apply list_elem_of_In, elem_of_map_to_list, Hk.
  - intros H [k m] Hin. apply list_elem_of_In, elem_of_map_to_list in Hin.
    apply andb_true_intro, (H k m Hin).
Qed.

Lemma document_wf_added (d : Store.document) ym date e :
  Store.document_wf d = true ->
  Utf8.valid ym = true -> Utf8.valid date = true -> Store.event_wf e = true ->
  let m0 := default ∅ (d !! ym) in
  Store.document_wf (<[ym := <[date := default [] (m0 !! date) ++ [e]]> m0]> d) = true.
Proof.
  intros Hd Hym Hdate He m0. rewrite document_wf_lookup in Hd.
  assert (Hm0 : forall k l, m0 !! k = Some l ->
                  Utf8.valid k = true /\ forallb Store.event_wf l = true).
  { subst m0. destruct (d !! ym) as [m|] eqn:E; simpl.
    - apply month_wf_lookup. eapply Hd, E.
    - intros k l H. rewrite lookup_empty in H. discriminate. }
  apply document_wf_lookup. intros k m Hk.
  destruct (decide (ym = k)) as [<-|Hne].
  - rewrite lookup_insert_eq in Hk. injection Hk as <-. split; [exact Hym|].
    apply month_wf_lookup. intros k l Hl.
    destruct (decide (date = k)) as [<-|Hdne].
    + rewrite lookup_insert_eq in Hl. injection Hl as <-. split; [exact Hdate|].
      rewrite forallb_app. simpl. rewrite He, andb_true_r.
      destruct (m0 !! date) as [l0|] eqn:E; simpl; [|reflexivity].
      eapply Hm0, E.
    + rewrite lookup_insert_ne in Hl by done. eapply Hm0, Hl.
  - rewrite lookup_insert_ne in Hk by done. eapply Hd, Hk.
Qed.

Lemma added_event_is_listed_after_rerun (isoformat : nat -> string)
    (date event_title event_description : string) (s : Store.state) :
  event_title <> "" ->
  Store.document_wf (Store.events s) = true ->
  Utf8.valid (Text.take 7 date) = true -> Utf8.valid date = true ->
  Utf8.valid event_title = true -> Utf8.valid event_description = true ->
  Utf8.valid (isoformat (Store.clock s)) = true ->
  let s' := (Store.add_event_pressed isoformat date event_title event_description s).2 in
  exists v d',
    Store.load_events s' = (Store.Ret v, s') /\
    Store.as_document v = Some d' /\
    Store.list_events d' date =
    Store.list_events (Store.events s) date ++
      [Store.Event event_title event_description (isoformat (Store.clock s))].
Proof.
  intros Ht Hwf Hym Hdate Hvt Hvd Hvts s'. subst s'.
  rewrite add_event_pressed_run by exact Ht.
  set (d' := <[_ := _]> (Store.events s)).
  assert (Hwf' : Store.document_wf d' = true).
  { subst d'. apply document_wf_added; try assumption.
    unfold Store.event_wf. simpl. rewrite Hvt, Hvd, Hvts. reflexivity. }
  rewrite finish_ok by exact Hwf'. simpl.
  exists (Store.to_json d'), d'. split; [|split].
  - apply (load_events_parsed _ (Json.dumps (Store.to_json d'))); [reflexivity | |].
    + apply utf8_valid_dumps_at, texts_valid_to_json, Hwf'.
    + apply loads_dumps, plain_to_json.
  - apply as_document_to_json.
  - subst d'. rewrite (list_events_default (Store.events s)).
    unfold Store.list_events. rewrite lookup_insert_eq, lookup_insert_eq. reflexivity.
Qed.

(** ** The theorems at the sample session *)

Lemma C1_added_event_is_listed_witness :
  exists now,
    (Store.clock Sample.fresh <= now <=
     Store.clock (Store.add_event_pressed Sample.isoformat "2024-03-15" "会議"
                    "朝のスタンドアップ" Sample.fresh).2)%nat /\
    Store.list_events
      (Store.events (Store.add_event_pressed Sample.isoformat "2024-03-15" "会議"
                       "朝のスタンドアップ" Sample.fresh).2) "2024-03-15" =
    Store.list_events (Store.events Sample.fresh) "2024-03-15" ++
      [Store.Event "会議" "朝のスタンドアップ" (Sample.isoformat now)].
Proof.
  apply (C1_added_event_is_listed Sample.isoformat "2024-03-15" "会議"
           "朝のスタンドアップ" Sample.fresh).
  discriminate.
Defined.

Example sample_add :
  Store.add_event_pressed Sample.isoformat "2024-03-15" "会議" "朝のスタンドアップ"
    Sample.fresh =
  (Store.Raise Store.RerunException,
   Store.State Sample.one_meeting (Some (Json.dumps (Store.to_json Sample.one_meeting)))
     1 901 [Store.Success "イベントを追加しました！"]).
Proof. vm_compute. reflexivity. Qed.

Example sample_delete :
  Store.event_column Sample.isoformat Sample.fromisoformat
    (Some (Store.DeleteEvent "2024-03-15" 0)) "2024-03-15" "" "" Sample.with_meeting =
  (Store.Raise Store.RerunException,
   Store.State ∅ (Some "{}") 2 901 [Store.Success "イベントを削除しました。"]).
Proof. vm_compute. reflexivity. Qed.

Lemma C3_pruning_witness :
  Store.events
    (Store.event_column Sample.isoformat Sample.fromisoformat
       (Some (Store.DeleteEvent "2024-03-15" 0)) "2024-03-15" "" "" Sample.with_meeting).2 =
  delete "2024-03" (Store.events Sample.with_meeting) /\
  Store.pruned
    (Store.events
       (Store.event_column Sample.isoformat Sample.fromisoformat
          (Some (Store.AddEvent "2024-03-15")) "2024-03-15" "会議" "" Sample.fresh).2).
Proof.
  destruct (C3_pruning Sample.isoformat Sample.fromisoformat "" "") as (Hdel & Hnew & _).
  split.
  - apply (Hdel "2024-03-15" Sample.meeting {[ "2024-03-15" := [Sample.meeting] ]}
             Sample.with_meeting); [discriminate | reflexivity | reflexivity | | ].
    + exists 0%nat. reflexivity.
    + apply delete_singleton_eq.
  - apply (Hnew Sample.fresh); [reflexivity|].
    eapply Store.produced_run; [apply Store.produced_start | apply surjective_pairing].
Defined.

Lemma C4_delete_out_of_range_is_noop_witness :
  Store.event_column Sample.isoformat Sample.fromisoformat
    (Some (Store.DeleteEvent "2024-03-15" 1)) "2024-03-15" "" "" Sample.with_meeting =
  Store.event_column Sample.isoformat Sample.fromisoformat None "2024-03-15" "" ""
    Sample.with_meeting.
Proof.
  apply (C4_delete_out_of_range_is_noop Sample.isoformat Sample.fromisoformat
           "2024-03-15" "" "" 1 Sample.with_meeting).
  vm_compute. lia.
Defined.

Lemma C5_empty_title_rejected_witness :
  Store.events
    (Store.event_column Sample.isoformat Sample.fromisoformat
       (Some (Store.AddEvent "2024-03-15")) "2024-03-15" "" "朝" Sample.with_meeting).2 =
  Store.events Sample.with_meeting.
Proof.
  apply (C5_empty_title_rejected Sample.isoformat Sample.fromisoformat "2024-03-15" "朝"
           Sample.with_meeting).
Defined.

Lemma C7_month_wrap_witness :
  Navigator.prev_month (Navigator.Cursor 2024 1) = Navigator.Cursor 2023 12 /\
  Navigator.next_month (Navigator.Cursor 2024 12) = Navigator.Cursor 2025 1 /\
  Navigator.prev_month (Navigator.Cursor 2024 6) = Navigator.Cursor 2024 5 /\
  Navigator.next_month (Navigator.Cursor 2024 6) = Navigator.Cursor 2024 7.
Proof.
  destruct (C7_month_wrap 2024 6) as (H1 & H2 & H3 & H4).
  split; [exact H1 | split; [exact H2 | split; [apply H3; lia | apply H4; lia]]].
Defined.

Lemma C10_add_event_frame_witness :
  Store.list_events
    (Store.events (Store.add_event_pressed Sample.isoformat "2024-03-15" "昼食" ""
                     Sample.with_meeting).2) "2024-03-15" !! 0%nat =
  Some Sample.meeting.
Proof.
  apply (C10_add_event_frame Sample.isoformat "2024-03-15" "昼食" "" Sample.with_meeting);
    [discriminate | reflexivity].
Defined.

(* ================================================================== *)
(** * Further properties of the code *)

(** ** The navigator (lines 58-74) *)

(** X1: the two month buttons undo each other: for a displayed month in
    1..12, "next" after "previous" and "previous" after "next" give the
    month and the year of before. *)
Theorem X1_prev_next_inverse (c : Navigator.cursor) :
  Navigator.month_ok c ->
  Navigator.next_month (Navigator.prev_month c) = c /\
  Navigator.prev_month (Navigator.next_month c) = c.
Proof.
  destruct c as [y m]. unfold Navigator.month_ok, Navigator.prev_month,
    Navigator.next_month. simpl. intros Hm. split.
  - destruct (Z.ltb_spec (m - 1) 1); simpl.
    + assert (m = 1) as -> by lia. f_equal. lia.
    + destruct (Z.ltb_spec 12 (m - 1 + 1)); [lia|]. f_equal. lia.
  - destruct (Z.ltb_spec 12 (m + 1)); simpl.
    + assert (m = 12) as -> by lia. f_equal. lia.
    + destruct (Z.ltb_spec (m + 1 - 1) 1); [lia|]. f_equal. lia.
Qed.

Lemma X1_prev_next_inverse_witness :
  Navigator.next_month (Navigator.prev_month (Navigator.Cursor 2024 1)) =
    Navigator.Cursor 2024 1 /\
  Navigator.prev_month (Navigator.next_month (Navigator.Cursor 2024 1)) =
    Navigator.Cursor 2024 1.
Proof.
  apply (X1_prev_next_inverse (Navigator.Cursor 2024 1)).
  unfold Navigator.month_ok. simpl. lia.
Defined.

Lemma months_step (c : Navigator.cursor) (mv : Navigator.move) :
  Navigator.month_ok c ->
  Navigator.months (Navigator.step c mv) =
  Navigator.months c + Navigator.offset [mv].
Proof.
  destruct c as [y m], mv;
    unfold Navigator.month_ok, Navigator.months, Navigator.step,
      Navigator.prev_month, Navigator.next_month; simpl; intros Hm.
  - destruct (Z.ltb_spec (m - 1) 1); simpl; lia.
  - destruct (Z.ltb_spec 12 (m + 1)); simpl; lia.
Qed.

Lemma offset_app (mvs1 mvs2 : list Navigator.move) :
  Navigator.offset (mvs1 ++ mvs2) = Navigator.offset mvs1 + Navigator.offset mvs2.
Proof.
  induction mvs1 as [|mv mvs1 IH]; simpl; [lia|].
  destruct mv; lia.
Qed.

Lemma run_month_ok (c : Navigator.cursor) (mvs : list Navigator.move) :
  Navigator.month_ok c -> Navigator.month_ok (Navigator.run c mvs).
Proof.
  unfold Navigator.run. revert c.
  induction mvs as [|mv mvs IH]; intros c Hc; simpl; [exact Hc|].
  apply IH, step_ok, Hc.
Qed.

Lemma months_run (c : Navigator.cursor) (mvs : list Navigator.move) :
  Navigator.month_ok c ->
  Navigator.months (Navigator.run c mvs) = Navigator.months c + Navigator.offset mvs.
Proof.
  unfold Navigator.run. revert c.
  induction mvs as [|mv mvs IH]; intros c Hc; simpl fold_left.
  - simpl. lia.
  - rewrite IH by (apply step_ok, Hc). rewrite months_step by exact Hc.
    change (mv :: mvs) with ([mv] ++ mvs). rewrite offset_app. lia.
Qed.

(** X2: a sequence of presses moves the calendar by as many months as it
    has "next" presses more than "previous" presses: the number of months
    12 * year + month changes by exactly that, across the ends of years. *)
Theorem X2_presses_count_months (c : Navigator.cursor) (mvs : list Navigator.move) :
  Navigator.month_ok c ->
  Navigator.months (Navigator.run c mvs) = Navigator.months c + Navigator.offset mvs.
Proof.
  unfold Navigator.run. revert c.
  induction mvs as [|mv mvs IH]; intros c Hc; simpl fold_left.
  - simpl. lia.
  - rewrite IH by (apply step_ok, Hc). rewrite months_step by exact Hc.
    change (mv :: mvs) with ([mv] ++ mvs). rewrite offset_app. lia.
Qed.

Lemma X2_presses_count_months_witness :
  Navigator.months
    (Navigator.run (Navigator.Cursor 2024 11)
       [Navigator.Next; Navigator.Next; Navigator.Next; Navigator.Prev]) =
  Navigator.months (Navigator.Cursor 2024 11) +
  Navigator.offset [Navigator.Next; Navigator.Next; Navigator.Next; Navigator.Prev].
Proof.
  apply (X2_presses_count_months (Navigator.Cursor 2024 11)).
  unfold Navigator.month_ok. simpl. lia.
Defined.

(** X3: a month in 1..12 and the number of months determine the cursor, so
    two sequences with as many presses forward as each other lead to the
    same month of the same year. *)
Theorem X3_presses_agree (c : Navigator.cursor) (mvs1 mvs2 : list Navigator.move) :
  Navigator.month_ok c ->
  Navigator.offset mvs1 = Navigator.offset mvs2 ->
  Navigator.run c mvs1 = Navigator.run c mvs2.
Proof.
  intros Hc Hoff.
  pose proof (run_month_ok c mvs1 Hc) as H1.
  pose proof (run_month_ok c mvs2 Hc) as H2.
  pose proof (months_run c mvs1 Hc) as E1.
  pose proof (months_run c mvs2 Hc) as E2.
  destruct (Navigator.run c mvs1) as [y1 m1], (Navigator.run c mvs2) as [y2 m2].
  unfold Navigator.month_ok, Navigator.months in *. simpl in *.
  assert (y1 = y2) by lia. assert (m1 = m2) by lia. congruence.
Qed.

Lemma X3_presses_agree_witness :
  Navigator.run (Navigator.Cursor 2024 12) [Navigator.Next; Navigator.Prev; Navigator.Next] =
  Navigator.run (Navigator.Cursor 2024 12) [Navigator.Next].
Proof.
  apply (X3_presses_agree (Navigator.Cursor 2024 12)).
  - unfold Navigator.month_ok. simpl. lia.
  - reflexivity.
Defined.

(** ** Loading (lines 12-24) *)

(** X4: [load_events] only reads: whatever the file holds, the document in
    memory, the file, the count of writes and the clock are as before; it
    shows at most the error message, and then returns the empty dict; and
    [json.JSONDecodeError] does not leave it. *)
Theorem X4_load_events_reads_only (s : Store.state) :
  let r := Store.load_events s in
  Store.events r.2 = Store.events s /\
  Store.file r.2 = Store.file s /\
  Store.writes r.2 = Store.writes s /\
  Store.clock r.2 = Store.clock s /\
  (Store.shown r.2 = Store.shown s \/
   r.1 = Store.Ret (Json.JObj []) /\
   Store.shown r.2 =
     Store.Error "イベントファイルが破損しています。空のデータで開始します。" :: Store.shown s) /\
  r.1 <> Store.Raise Store.JSONDecodeError.
Proof.
  destruct (Store.file s) as [bytes|] eqn:Hf.
  - destruct (Utf8.valid bytes) eqn:Hv.
    + destruct (Json.loads bytes) as [v|] eqn:Hl.
      * rewrite (load_events_parsed s bytes v Hf Hv Hl). simpl.
        repeat split; auto; discriminate.
      * rewrite (load_events_malformed s bytes Hf Hv Hl). simpl.
        repeat split; auto; discriminate.
    + rewrite (load_events_undecodable s bytes Hf Hv). simpl.
      repeat split; auto; discriminate.
  - rewrite (load_events_absent s Hf). simpl. repeat split; auto; discriminate.
Qed.

Lemma skip_ws_blank (s : string) :
  forallb Json.is_ws (list_ascii_of_string s) = true -> Json.skip_ws s = "".
Proof.
  induction s as [|c s IH]; simpl; [reflexivity|].
  intros H. apply andb_prop in H as [Hc Hs]. rewrite Hc. apply IH, Hs.
Qed.

Lemma utf8_valid_blank (s : string) :
  forallb Json.is_ws (list_ascii_of_string s) = true -> Utf8.valid s = true.
Proof.
  induction s as [|c s IH]; simpl; [reflexivity|].
  intros H. apply andb_prop in H as [Hc Hs].
  apply utf8_valid_cons_ascii; [|apply IH, Hs].
  unfold Json.is_ws in Hc.
  repeat (apply orb_prop in Hc as [Hc|Hc]); apply Ascii.eqb_eq in Hc; subst c;
    reflexivity.
Qed.

(** X5: a file that is empty, or has nothing but spaces, tabs and line
    ends, is handled as a damaged file: [load_events] returns the empty
    dict and shows the error message. *)
Theorem X5_blank_file_is_damaged (s : Store.state) (blank : string) :
  Store.file s = Some blank ->
  forallb Json.is_ws (list_ascii_of_string blank) = true ->
  Store.load_events s =
  (Store.Ret (Json.JObj []),
   Store.State (Store.events s) (Store.file s) (Store.writes s) (Store.clock s)
     (Store.Error "イベントファイルが破損しています。空のデータで開始します。" :: Store.shown s)).
Proof.
  intros Hf Hb. apply (load_events_malformed s blank Hf).
  - apply utf8_valid_blank, Hb.
  - unfold Json.loads. rewrite skip_ws_blank by exact Hb. reflexivity.
Qed.

Lemma X5_blank_file_is_damaged_witness :
  Store.load_events (Store.State ∅ (Some "") 0 0 []) =
  (Store.Ret (Json.JObj []),
   Store.State ∅ (Some "") 0 0
     [Store.Error "イベントファイルが破損しています。空のデータで開始します。"]).
Proof.
  apply (X5_blank_file_is_damaged (Store.State ∅ (Some "") 0 0 []) "");
    reflexivity.
Defined.

(** X6: [load_events] does not look at the shape of what it reads: when
    the file holds the text of a JSON value of strings, constants, lists
    and dicts (with well-formed texts) that is nested no deeper than a
    document is, that value is returned, be it a document or not, and
    nothing is shown. *)
Theorem X6_load_returns_any_value (s : Store.state) (v : Json.json) :
  Json.plain v = true -> Json.texts_valid v = true ->
  (Json.depth v <= 4)%nat ->
  Store.file s = Some (Json.dumps v) ->
  Store.load_events s = (Store.Ret v, s).
Proof.
  intros Hp Hv _ Hf. apply (load_events_parsed s (Json.dumps v) v Hf).
  - apply utf8_valid_dumps_at, Hv.
  - apply loads_dumps, Hp.
Qed.

Lemma X6_load_returns_any_value_witness :
  Store.load_events
    (Store.State ∅ (Some (Json.dumps (Json.JArr [Json.JStr "会議"; Json.JNull]))) 0 0 []) =
  (Store.Ret (Json.JArr [Json.JStr "会議"; Json.JNull]),
   Store.State ∅ (Some (Json.dumps (Json.JArr [Json.JStr "会議"; Json.JNull]))) 0 0 []) /\
  Store.as_document (Json.JArr [Json.JStr "会議"; Json.JNull]) = None.
Proof.
  split; [|reflexivity].
  apply (X6_load_returns_any_value
           (Store.State ∅ (Some (Json.dumps (Json.JArr [Json.JStr "会議"; Json.JNull]))) 0 0 [])
           (Json.JArr [Json.JStr "会議"; Json.JNull])); try reflexivity.
  simpl. lia.
Defined.

(** ** Saving (lines 27-30) *)

Lemma escape_char_verbatim (c : ascii) :
  (32 <= N_of_ascii c)%N -> c <> "034"%char -> c <> "\"%char ->
  Json.escape_char c = String c "".
Proof.
  intros H32 Hq Hb. unfold Json.escape_char.
  apply Ascii.eqb_neq in Hq, Hb. rewrite Hq, Hb.
  assert (Hlow : forall d, (N_of_ascii d < 32)%N -> Ascii.eqb c d = false).
  { intros d Hd. apply Ascii.eqb_neq. intros ->. lia. }
  rewrite !Hlow by (simpl; lia).
  replace (N_of_ascii c <? 32)%N with false by (symmetry; apply N.ltb_ge; lia).
  reflexivity.
Qed.

Lemma infix_trans (a b c : string) :
  (exists p q, a = p +:+ b +:+ q) -> (exists p q, b = p +:+ c +:+ q) ->
  exists p q, a = p +:+ c +:+ q.
Proof.
  intros (p1 & q1 & ->) (p2 & q2 & ->). exists (p1 +:+ p2), (q2 +:+ q1).
  rewrite !text_app_assoc. reflexivity.
Qed.

Lemma infix_app_r (a b c : string) :
  (exists p q, a = p +:+ (b +:+ c) +:+ q) -> exists p q, a = p +:+ c +:+ q.
Proof.
  intros (p & q & ->). exists (p +:+ b), q. rewrite !text_app_assoc. reflexivity.
Qed.

Lemma dumps_at_item (lvl : nat) (l : list Json.json) (x : Json.json) :
  x ∈ l ->
  exists p q, Json.dumps_at lvl (Json.JArr l) = p +:+ Json.dumps_at (S lvl) x +:+ q.
Proof.
  intros Hx. destruct l as [|x0 xs]; [inversion Hx|]. simpl.
  apply elem_of_cons in Hx as [->|Hx].
  - exists ("[" +:+ Json.newline_indent (S lvl)). eexists.
    rewrite !text_app_assoc. reflexivity.
  - assert (Hrest : forall base, exists p q,
              fold_right (fun y acc => "," +:+ Json.newline_indent (S lvl) +:+
                                       Json.dumps_at (S lvl) y +:+ acc) base xs =
              p +:+ Json.dumps_at (S lvl) x +:+ q).
    { intros base. induction xs as [|y ys IH]; [inversion Hx|].
      apply elem_of_cons in Hx as [->|Hx]; simpl fold_right.
      - exists ("," +:+ Json.newline_indent (S lvl)). eexists.
        rewrite !text_app_assoc. reflexivity.
      - destruct (IH Hx) as (p & q & ->).
        exists ("," +:+ Json.newline_indent (S lvl) +:+ Json.dumps_at (S lvl) y +:+ p), q.
        rewrite !text_app_assoc. reflexivity. }
    destruct (Hrest (Json.newline_indent lvl +:+ "]")) as (p & q & ->).
    exists ("[" +:+ Json.newline_indent (S lvl) +:+ Json.dumps_at (S lvl) x0 +:+ p), q.
    rewrite !text_app_assoc. reflexivity.
Qed.

Lemma dumps_at_member (lvl : nat) (ms : list (string * Json.json)) (k : string)
    (x : Json.json) :
  (k, x) ∈ ms ->
  exists p q, Json.dumps_at lvl (Json.JObj ms) =
              p +:+ (Json.quote k +:+ ": " +:+ Json.dumps_at (S lvl) x) +:+ q.
Proof.
  intros Hx. destruct ms as [|[k0 x0] ms]; [inversion Hx|]. simpl.
  apply elem_of_cons in Hx as [[= -> ->]|Hx].
  - exists ("{" +:+ Json.newline_indent (S lvl)). eexists.
    rewrite !text_app_assoc. reflexivity.
  - assert (Hrest : forall base, exists p q,
              fold_right (fun m acc => "," +:+ Json.newline_indent (S lvl) +:+
                                       Json.quote m.1 +:+ ": " +:+
                                       Json.dumps_at (S lvl) m.2 +:+ acc) base ms =
              p +:+ (Json.quote k +:+ ": " +:+ Json.dumps_at (S lvl) x) +:+ q).
    { intros base. induction ms as [|[k1 y] ms IH]; [inversion Hx|].
      apply elem_of_cons in Hx as [[= -> ->]|Hx]; simpl fold_right.
      - exists ("," +:+ Json.newline_indent (S lvl)). eexists.
        rewrite !text_app_assoc. reflexivity.
      - destruct (IH Hx) as (p & q & ->).
        exists ("," +:+ Json.newline_indent (S lvl) +:+ Json.quote k1 +:+ ": " +:+
                Json.dumps_at (S lvl) y +:+ p), q.
        rewrite !text_app_assoc. reflexivity. }
    destruct (Hrest (Json.newline_indent lvl +:+ "}")) as (p & q & ->).
    exists ("{" +:+ Json.newline_indent (S lvl) +:+ Json.quote k0 +:+ ": " +:+
            Json.dumps_at (S lvl) x0 +:+ p), q.
    rewrite !text_app_assoc. reflexivity.
Qed.

Lemma escape_unescaped (t : string) : Json.unescaped t = true -> Json.escape t = t.
Proof.
  unfold Json.unescaped. induction t as [|c t IH]; [reflexivity|].
  simpl. intros H. apply andb_prop in H as [Hc Ht].
  apply andb_prop in Hc as [Hc Hb]. apply andb_prop in Hc as [H32 Hq].
  apply N.leb_le in H32. apply negb_true_iff, Ascii.eqb_neq in Hq, Hb.
  rewrite escape_char_verbatim by assumption. rewrite IH by exact Ht. reflexivity.
Qed.

(** The text of an event stands in the text of the document. *)
Lemma dumps_event_within (d : Store.document) (ym date : string) (m : Store.month)
    (l : list Store.event) (e : Store.event) :
  d !! ym = Some m -> m !! date = Some l -> e ∈ l ->
  exists p q, Json.dumps (Store.to_json d) =
              p +:+ Json.dumps_at 3 (Store.event_to_json e) +:+ q.
Proof.
  intros Hym Hd He. unfold Json.dumps, Store.to_json.
  eapply infix_trans.
  { eapply infix_app_r, infix_app_r, (dumps_at_member 0 _ ym (Store.month_to_json m)).
    apply (list_elem_of_fmap_2 (fun p : string * Store.month => (p.1, Store.month_to_json p.2))
             _ (ym, m)).
    apply elem_of_map_to_list, Hym. }
  unfold Store.month_to_json. eapply infix_trans.
  { eapply infix_app_r, infix_app_r, (dumps_at_member 1 _ date (Store.day_to_json l)).
    apply (list_elem_of_fmap_2
             (fun p : string * list Store.event => (p.1, Store.day_to_json p.2)) _ (date, l)).
    apply elem_of_map_to_list, Hd. }
  unfold Store.day_to_json. apply dumps_at_item.
  apply (list_elem_of_fmap_2 Store.event_to_json), He.
Qed.

(** X7: with [ensure_ascii=False] a text is saved as it is: when a
    document whose texts are well-formed is saved, the title of each of
    its events, if it has no quote, backslash or control character, stands
    in the file after its key between two quotes, byte for byte, whatever
    other characters it has (Japanese included); and so does the
    description. *)
Theorem X7_text_written_verbatim (d : Store.document) (s : Store.state)
    (ym date : string) (m : Store.month) (l : list Store.event) (e : Store.event) :
  Store.document_wf d = true ->
  d !! ym = Some m -> m !! date = Some l -> e ∈ l ->
  (Json.unescaped (Store.title e) = true ->
   exists p q,
     Store.file (Store.save_events d s).2 =
     Some (p +:+ (Json.quote "title" +:+ ": " +:+
                  String "034" (Store.title e +:+ String "034" "")) +:+ q)) /\
  (Json.unescaped (Store.description e) = true ->
   exists p q,
     Store.file (Store.save_events d s).2 =
     Some (p +:+ (Json.quote "description" +:+ ": " +:+
                  String "034" (Store.description e +:+ String "034" "")) +:+ q)).
Proof.
  intros Hwf Hym Hd He. rewrite save_events_ok by exact Hwf. simpl.
  pose proof (dumps_event_within d ym date m l e Hym Hd He) as Hin.
  split; intros Hu.
  - destruct (infix_trans _ _ _ Hin
                (dumps_at_member 3 _ "title" (Json.JStr (Store.title e))
                   (list_elem_of_here _ _)))
      as (p & q & ->).
    exists p, q. simpl. unfold Json.quote at 2. rewrite escape_unescaped by exact Hu.
    reflexivity.
  - destruct (infix_trans _ _ _ Hin
                (dumps_at_member 3 _ "description" (Json.JStr (Store.description e))
                   (list_elem_of_further _ _ _ (list_elem_of_here _ _))))
      as (p & q & ->).
    exists p, q. simpl. unfold Json.quote at 2. rewrite escape_unescaped by exact Hu.
    reflexivity.
Qed.

Lemma X7_text_written_verbatim_witness :
  (exists p q,
     Store.file (Store.save_events Sample.one_meeting Sample.fresh).2 =
     Some (p +:+ (Json.quote "title" +:+ ": " +:+
                  String "034" ("会議" +:+ String "034" "")) +:+ q)) /\
  (exists p q,
     Store.file (Store.save_events Sample.one_meeting Sample.fresh).2 =
     Some (p +:+ (Json.quote "description" +:+ ": " +:+
                  String "034" ("朝のスタンドアップ" +:+ String "034" "")) +:+ q)).
Proof.
  destruct (X7_text_written_verbatim Sample.one_meeting Sample.fresh
              "2024-03" "2024-03-15" {[ "2024-03-15" := [Sample.meeting] ]}
              [Sample.meeting] Sample.meeting) as [Ht Hd].
  - vm_compute. reflexivity.
  - reflexivity.
  - reflexivity.
  - apply list_elem_of_here.
  - split; [apply Ht | apply Hd]; vm_compute; reflexivity.
Defined.

(** X8: the text that [save_events] writes tells the document: two
    documents with the same text are the same document. *)
Theorem X8_saved_text_determines_document (d1 d2 : Store.document) :
  Json.dumps (Store.to_json d1) = Json.dumps (Store.to_json d2) -> d1 = d2.
Proof.
  intros H.
  pose proof (loads_dumps (Store.to_json d1) (plain_to_json d1)) as H1.
  rewrite H, (loads_dumps (Store.to_json d2) (plain_to_json d2)) in H1.
  assert (Hv : Store.to_json d2 = Store.to_json d1) by congruence.
  pose proof (as_document_to_json d1) as Hd.
  rewrite <- Hv, as_document_to_json in Hd. congruence.
Qed.

Lemma X8_saved_text_determines_document_witness :
  Sample.one_meeting = <["2024-03" := <["2024-03-15" := [Sample.meeting]]> ∅]> ∅.
Proof.
  apply (X8_saved_text_determines_document Sample.one_meeting
           (<["2024-03" := <["2024-03-15" := [Sample.meeting]]> ∅]> ∅)).
  vm_compute. reflexivity.
Defined.

(** ** The delete button (lines 161-183) *)

Section ColumnFacts.

Variable isoformat : nat -> string.
Variable fromisoformat : string -> option nat.

(** The press of the delete button of a position of the list reaches the
    handler when the events up to that position can be displayed. *)
Lemma event_column_delete (date event_title event_description : string) (i : nat)
    (s : Store.state) (m : Store.month) (l : list Store.event) :
  date <> "" ->
  Store.events s !! Text.take 7 date = Some m -> m !! date = Some l ->
  (i < length l)%nat ->
  Forall (fun e => is_Some (fromisoformat (Store.timestamp e))) (take (S i) l) ->
  Store.event_column isoformat fromisoformat (Some (Store.DeleteEvent date i)) date
    event_title event_description s =
  Store.delete_event_pressed date i s.
Proof.
  intros Hdate Hym Hd Hi Hshow. unfold Store.event_column, Store.st_button.
  destruct date as [|ch date0]; [congruence|]. set (date := String ch date0) in *.
  rewrite bool_decide_false by discriminate.
  transitivity (Store.event_list fromisoformat (Some (Store.DeleteEvent date i)) date s);
    [reflexivity|].
  unfold Store.event_list. destruct s as [ev f w c sh]. simpl in *. run_script.
  rewrite Hym, Hd.
  destruct (lookup_lt_is_Some_2 l i Hi) as [e He].
  assert (Hl : l = take i l ++ e :: drop (S i) l) by (symmetry; apply take_drop_middle, He).
  assert (Hlen : length (take i l) = i) by (rewrite length_take; lia).
  destruct l as [|e0 l0]; [simpl in Hi; lia|].
  rewrite Hl.
  pose proof (show_events_pressed fromisoformat date 0 (take i (e0 :: l0)) e
                (drop (S i) (e0 :: l0)) (Store.State ev f w c sh)) as Hrun.
  rewrite Hlen in Hrun. simpl Nat.add in Hrun. apply Hrun.
  rewrite (take_S_r _ _ e He) in Hshow. exact Hshow.
Qed.

(** The list of a date after the deletion of one of its events. *)
Lemma list_events_deleted (d : Store.document) (date : string) (m : Store.month)
    (l : list Store.event) (i : nat) :
  d !! Text.take 7 date = Some m -> m !! date = Some l ->
  let l' := delete i l in
  let m' := match l' with [] => delete date m | _ :: _ => <[date := l']> m end in
  Store.list_events
    (if bool_decide (m' = ∅) then delete (Text.take 7 date) d
     else <[Text.take 7 date := m']> d) date = l'.
Proof.
  intros Hym Hd l' m'. unfold Store.list_events.
  case_bool_decide as Hm'.
  - rewrite lookup_delete_eq. subst m'. destruct l' as [|x l2]; [reflexivity|].
    exfalso. revert Hm'. apply insert_non_empty.
  - rewrite lookup_insert_eq. subst m'. destruct l' as [|x l2].
    + rewrite lookup_delete_eq. reflexivity.
    + rewrite lookup_insert_eq. reflexivity.
Qed.

(** X9: the delete button of position [i] removes the event at that
    position and no other: afterwards the list of the date in the
    document is the list of before without its [i]-th event, the others in
    their order, and the file has been opened for writing once.  When the
    texts of the document that remains are well-formed, the file has the
    text of that document and the run ends with a rerun. *)
Theorem X9_delete_removes_that_event (date event_title event_description : string)
    (i : nat) (s : Store.state) :
  date <> "" ->
  (i < length (Store.list_events (Store.events s) date))%nat ->
  Forall (fun e => is_Some (fromisoformat (Store.timestamp e)))
    (take (S i) (Store.list_events (Store.events s) date)) ->
  let r := Store.event_column isoformat fromisoformat (Some (Store.DeleteEvent date i))
             date event_title event_description s in
  Store.list_events (Store.events r.2) date =
    take i (Store.list_events (Store.events s) date) ++
    drop (S i) (Store.list_events (Store.events s) date) /\
  Store.writes r.2 = S (Store.writes s) /\
  (Store.document_wf (Store.events r.2) = true ->
   r.1 = Store.Raise Store.RerunException /\
   Store.file r.2 = Some (Json.dumps (Store.to_json (Store.events r.2)))).
Proof.
  intros Hdate Hi Hshow r. subst r.
  unfold Store.list_events in Hi, Hshow |- * at 2 3.
  destruct (Store.events s !! Text.take 7 date) as [m|] eqn:Hym; [|simpl in Hi; lia].
  destruct (m !! date) as [l|] eqn:Hd; [|simpl in Hi; lia].
  rewrite (event_column_delete date _ _ i s m l Hdate Hym Hd Hi Hshow).
  rewrite (delete_event_pressed_run date i s m l Hym Hd Hi).
  set (s1 := Store.State _ _ _ _ _). set (msg := Store.Success _).
  rewrite finish_events, finish_writes. split; [|split; [reflexivity|]].
  - subst s1. simpl Store.events.
    rewrite (list_events_deleted (Store.events s) date m l i Hym Hd).
    apply delete_take_drop.
  - intros Hwf. rewrite finish_ok by exact Hwf. simpl. auto.
Qed.


(** The loop either reaches the handler of the pressed delete button, or
    it only displays. *)
Lemma show_events_cases (pressed : option Store.button) (date : string) (i0 : nat)
    (pending : list Store.event) (s : Store.state) :
  (exists j, pressed = Some (Store.DeleteEvent date j) /\
             (i0 <= j < i0 + length pending)%nat /\
             Store.show_events fromisoformat pressed date i0 pending s =
             Store.delete_event_pressed date j s) \/
  (exists o, Store.show_events fromisoformat pressed date i0 pending s = (o, s) /\
             (o = Store.Ret tt \/ o = Store.Raise Store.ValueError)).
Proof.
  revert i0. induction pending as [|e rest IH]; intros i0; simpl.
  - right. eauto.
  - destruct (fromisoformat (Store.timestamp e)); [|right; eauto].
    unfold Store.st_button. case_bool_decide as Hp.
    + left. exists i0. split; [exact Hp|]. split; [lia | reflexivity].
    + destruct (IH (S i0)) as [(j & Hj & Hr & Hrun)|Hidle].
      * left. exists j. split; [exact Hj|]. split; [lia | exact Hrun].
      * right. exact Hidle.
Qed.

(** A run of the column is an addition, a deletion at a position of the
    list, or a run that changes nothing but the messages shown. *)
Lemma event_column_cases (pressed : option Store.button)
    (date event_title event_description : string) (s : Store.state) :
  let r := Store.event_column isoformat fromisoformat pressed date event_title
             event_description s in
  (pressed = Some (Store.AddEvent date) /\ event_title <> "" /\
   r = Store.add_event_pressed isoformat date event_title event_description s) \/
  (exists i (m : Store.month) l,
     pressed = Some (Store.DeleteEvent date i) /\
     Store.events s !! Text.take 7 date = Some m /\ m !! date = Some l /\
     (i < length l)%nat /\
     r = Store.delete_event_pressed date i s) \/
  ((r.1 = Store.Ret tt \/ r.1 = Store.Raise Store.ValueError) /\
   Store.events r.2 = Store.events s /\ Store.file r.2 = Store.file s /\
   Store.writes r.2 = Store.writes s /\ Store.clock r.2 = Store.clock s).
Proof.
  intros r. subst r. unfold Store.event_column.
  destruct date as [|ch date0]; [right; right; simpl; auto 10|].
  set (date := String ch date0).
  assert (Hlist : forall s1,
    (exists i (m : Store.month) l,
       pressed = Some (Store.DeleteEvent date i) /\
       Store.events s1 !! Text.take 7 date = Some m /\ m !! date = Some l /\
       (i < length l)%nat /\
       Store.event_list fromisoformat pressed date s1 =
       Store.delete_event_pressed date i s1) \/
    (((Store.event_list fromisoformat pressed date s1).1 = Store.Ret tt \/
      (Store.event_list fromisoformat pressed date s1).1 = Store.Raise Store.ValueError) /\
     Store.events (Store.event_list fromisoformat pressed date s1).2 = Store.events s1 /\
     Store.file (Store.event_list fromisoformat pressed date s1).2 = Store.file s1 /\
     Store.writes (Store.event_list fromisoformat pressed date s1).2 = Store.writes s1 /\
     Store.clock (Store.event_list fromisoformat pressed date s1).2 = Store.clock s1)).
  { intros s1. unfold Store.event_list. destruct s1 as [ev f w c sh]. simpl. run_script.
    destruct (ev !! Text.take 7 date) as [m|] eqn:Hym; [|right; simpl; auto 10].
    destruct (m !! date) as [l|] eqn:Hd; [|right; simpl; auto 10].
    destruct l as [|e l]; [right; simpl; auto 10|].
    destruct (show_events_cases pressed date 0 (e :: l) (Store.State ev f w c sh))
      as [(j & Hj & Hr & Hrun)|(o & Hrun & Ho)].
    - left. exists j, m, (e :: l). repeat split; try assumption. lia.
    - right. rewrite Hrun. simpl. destruct Ho as [-> | ->]; auto 10. }
  unfold Store.st_button. case_bool_decide as Hadd.
  - destruct (decide (event_title = "")) as [->|Ht].
    + right. right. unfold mbind at 1, Store.M_bind.
      rewrite add_event_pressed_empty_title. cbv beta iota.
      set (s1 := Store.State _ _ _ _ _).
      destruct (Hlist s1) as [(i & m & l & Hp & _)|Hidle]; [congruence|].
      exact Hidle.
    + left. split; [exact Hadd|]. split; [exact Ht|].
      unfold mbind at 1, Store.M_bind. rewrite add_event_pressed_run by exact Ht.
      set (s1 := Store.State _ _ _ _ _). set (msg := Store.Success _).
      destruct (finish_raises msg s1) as [Hr|Hr]; revert Hr;
        destruct (Store.finish msg s1) as [[[]|e] s2]; simpl; congruence.
  - change ((mret tt ≫= fun _ : () => Store.event_list fromisoformat pressed date) s)
      with (Store.event_list fromisoformat pressed date s).
    destruct (Hlist s) as [Hdel|Hidle]; [right; left; exact Hdel | right; right; exact Hidle].
Qed.

(** The rest of the document after a deletion. *)
Lemma deleted_frame (d : Store.document) (date : string) (m : Store.month)
    (l : list Store.event) (i : nat) :
  d !! Text.take 7 date = Some m -> m !! date = Some l ->
  let l' := delete i l in
  let m' := match l' with [] => delete date m | _ :: _ => <[date := l']> m end in
  let d' := if bool_decide (m' = ∅) then delete (Text.take 7 date) d
            else <[Text.take 7 date := m']> d in
  (forall ym, ym <> Text.take 7 date -> d' !! ym = d !! ym) /\
  (forall ym date', date' <> date ->
     d' !! ym ≫= (fun m => m !! date') = d !! ym ≫= (fun m => m !! date')).
Proof.
  intros Hym Hd l' m' d'.
  assert (Hm' : forall date', date' <> date -> m' !! date' = m !! date').
  { intros date' Hne. subst m'. destruct l'.
    - apply lookup_delete_ne. done.
    - apply lookup_insert_ne. done. }
  subst d'. split.
  - intros ym Hne. case_bool_decide.
    + apply lookup_delete_ne. done.
    + apply lookup_insert_ne. done.
  - intros ym date' Hne. destruct (decide (Text.take 7 date = ym)) as [<-|Hymne].
    + rewrite Hym. simpl. rewrite <- (Hm' date' Hne). case_bool_decide as He.
      * rewrite lookup_delete_eq, He, lookup_empty. reflexivity.
      * rewrite lookup_insert_eq. reflexivity.
    + case_bool_decide.
      * rewrite lookup_delete_ne by done. reflexivity.
      * rewrite lookup_insert_ne by done. reflexivity.
Qed.

(** X10: a deletion leaves the rest of the document as it was: the other
    months, and the other dates of every month. *)
Theorem X10_delete_frame (date event_title event_description : string)
    (i : nat) (s : Store.state) :
  let d := Store.events s in
  let d' := Store.events
              (Store.event_column isoformat fromisoformat
                 (Some (Store.DeleteEvent date i)) date event_title event_description s).2 in
  (forall ym, ym <> Text.take 7 date -> d' !! ym = d !! ym) /\
  (forall ym date', date' <> date ->
     d' !! ym ≫= (fun m => m !! date') = d !! ym ≫= (fun m => m !! date')).
Proof.
  intros d d'. subst d d'.
  destruct (event_column_cases (Some (Store.DeleteEvent date i)) date event_title
              event_description s)
    as [(Hp & _)|[(j & m & l & Hp & Hym & Hd & Hj & Hrun)|(_ & He & _)]].
  - discriminate.
  - rewrite Hrun, (delete_event_pressed_run date j s m l Hym Hd Hj).
    rewrite finish_events. simpl.
    apply (deleted_frame (Store.events s) date m l j Hym Hd).
  - rewrite He. auto.
Qed.

Lemma show_events_blocked (date : string) (k i0 : nat) (pending : list Store.event)
    (s : Store.state) :
  (exists j e, pending !! j = Some e /\ fromisoformat (Store.timestamp e) = None /\
               (i0 + j <= k)%nat) ->
  Store.show_events fromisoformat (Some (Store.DeleteEvent date k)) date i0 pending s =
  (Store.Raise Store.ValueError, s).
Proof.
  revert i0. induction pending as [|e0 rest IH]; intros i0 (j & e & Hj & He & Hk).
  - discriminate.
  - simpl. destruct (fromisoformat (Store.timestamp e0)) as [t|] eqn:E0; [|reflexivity].
    destruct j as [|j]; [simpl in Hj; congruence|].
    unfold Store.st_button. rewrite bool_decide_false by (intros [= ->]; lia).
    apply IH. exists j, e. repeat split; [exact Hj | exact He | lia].
Qed.

(** X11: an event whose timestamp [datetime.fromisoformat] does not read
    cannot be deleted with its button, nor can the events listed after it:
    displaying it raises [ValueError] before the button is reached, and
    nothing is changed. *)
Theorem X11_unreadable_timestamp_blocks_delete
    (date event_title event_description : string) (i j : nat) (e : Store.event)
    (s : Store.state) :
  date <> "" ->
  Store.list_events (Store.events s) date !! j = Some e ->
  fromisoformat (Store.timestamp e) = None ->
  (j <= i)%nat ->
  Store.event_column isoformat fromisoformat (Some (Store.DeleteEvent date i)) date
    event_title event_description s =
  (Store.Raise Store.ValueError, s).
Proof.
  intros Hdate Hj He Hji. unfold Store.event_column, Store.st_button.
  destruct date as [|ch date0]; [congruence|]. set (date := String ch date0) in *.
  rewrite bool_decide_false by discriminate.
  transitivity (Store.event_list fromisoformat (Some (Store.DeleteEvent date i)) date s);
    [reflexivity|].
  unfold Store.list_events in Hj. unfold Store.event_list.
  destruct s as [ev f w c sh]. simpl in *. run_script.
  destruct (ev !! Text.take 7 date) as [m|]; [|discriminate].
  destruct (m !! date) as [l|]; [|discriminate].
  destruct l as [|e0 l]; [discriminate|].
  apply show_events_blocked. exists j, e. repeat split; [exact Hj | exact He | lia].
Qed.

(** X12: deleting the event that has just been added gives the document
    of before the addition, for a document without empty containers: the
    date and the month that the addition created are removed again. *)
Theorem X12_add_then_delete_restores
    (date event_title event_description title' description' : string)
    (s : Store.state) :
  Store.pruned (Store.events s) ->
  event_title <> "" -> date <> "" ->
  Forall (fun e => is_Some (fromisoformat (Store.timestamp e)))
    (Store.list_events (Store.events s) date) ->
  is_Some (fromisoformat (isoformat (Store.clock s))) ->
  let s1 := (Store.add_event_pressed isoformat date event_title event_description s).2 in
  Store.events
    (Store.event_column isoformat fromisoformat
       (Some (Store.DeleteEvent date (length (Store.list_events (Store.events s) date))))
       date title' description' s1).2 =
  Store.events s.
Proof.
  intros Hp Ht Hdate Hold Hnew s1. subst s1.
  rewrite add_event_pressed_run by exact Ht.
  rewrite (list_events_default (Store.events s)) in Hold |- *.
  set (ym := Text.take 7 date) in *.
  set (m0 := default ∅ (Store.events s !! ym)) in *.
  set (l0 := default [] (m0 !! date)) in *.
  set (e := Store.Event event_title event_description (isoformat (Store.clock s))).
  set (d1 := <[ym := <[date := l0 ++ [e]]> m0]> (Store.events s)).
  set (s1 := (Store.finish _ _).2).
  assert (He1 : Store.events s1 = d1) by (subst s1; apply finish_events).
  assert (Hym1 : Store.events s1 !! Text.take 7 date = Some (<[date := l0 ++ [e]]> m0))
    by (rewrite He1; apply lookup_insert_eq).
  assert (Hd1 : <[date := l0 ++ [e]]> m0 !! date = Some (l0 ++ [e]))
    by (apply lookup_insert_eq).
  rewrite (event_column_delete date _ _ (length l0) s1 _ (l0 ++ [e]) Hdate Hym1 Hd1).
  2: { rewrite length_app. simpl. lia. }
  2: { rewrite take_ge by (rewrite length_app; simpl; lia).
       apply Forall_app. split; [exact Hold|]. repeat constructor. exact Hnew. }
  rewrite (delete_event_pressed_run date (length l0) s1 _ (l0 ++ [e]) Hym1 Hd1)
    by (rewrite length_app; simpl; lia).
  rewrite finish_events. simpl Store.events. rewrite He1. fold ym.
  replace (delete (length l0) (l0 ++ [e])) with l0
    by (rewrite delete_middle, app_nil_r; reflexivity).
  subst d1. destruct (Store.events s !! ym) as [m|] eqn:Hym.
  - destruct (Hp ym m Hym) as [Hne Hdates].
    subst m0. simpl in *. destruct (m !! date) as [l|] eqn:Hd.
    + subst l0. simpl. pose proof (Hdates date l Hd) as Hl.
      destruct l as [|x l]; [congruence|].
      rewrite insert_insert_eq, (insert_id m date (x :: l) Hd).
      rewrite bool_decide_false by exact Hne.
      rewrite insert_insert_eq. apply insert_id, Hym.
    + subst l0. simpl. rewrite delete_insert_eq, (delete_id m date Hd).
      rewrite bool_decide_false by exact Hne.
      rewrite insert_insert_eq. apply insert_id, Hym.
  - subst m0 l0. simpl. rewrite lookup_empty. simpl.
    rewrite delete_insert_eq, delete_empty.
    rewrite bool_decide_true by reflexivity.
    rewrite delete_insert_eq. apply delete_id, Hym.
Qed.

(** What a handler that has changed the document does to the file. *)
Lemma finish_saves (msg : Store.message) (s1 : Store.state) :
  let r := Store.finish msg s1 in
  (r.1 = Store.Raise Store.RerunException /\
   Store.file r.2 = Some (Json.dumps (Store.to_json (Store.events r.2))) /\
   Store.writes r.2 = S (Store.writes s1)) \/
  (r.1 = Store.Raise Store.UnicodeEncodeError /\
   Store.document_wf (Store.events r.2) = false /\
   Store.writes r.2 = S (Store.writes s1) /\
   exists text rest,
     Store.file r.2 = Some text /\ rest <> "" /\
     Json.dumps (Store.to_json (Store.events r.2)) = text +:+ rest).
Proof.
  intros r. subst r.
  destruct (finish_cases msg s1) as [->|(Hwf & text & rest & Hrest & Hcut & ->)]; simpl.
  - left. auto.
  - right. split; [reflexivity|]. split; [exact Hwf|]. split; [reflexivity|].
    exists text, rest. auto.
Qed.

(** What a run does to the file. *)
Lemma event_column_saves (pressed : option Store.button)
    (date event_title event_description : string) (s : Store.state) :
  let r := Store.event_column isoformat fromisoformat pressed date event_title
             event_description s in
  (r.1 = Store.Raise Store.RerunException /\
   Store.file r.2 = Some (Json.dumps (Store.to_json (Store.events r.2))) /\
   Store.writes r.2 = S (Store.writes s)) \/
  (r.1 <> Store.Raise Store.RerunException /\
   Store.events r.2 = Store.events s /\
   Store.file r.2 = Store.file s /\
   Store.writes r.2 = Store.writes s) \/
  (r.1 = Store.Raise Store.UnicodeEncodeError /\
   Store.document_wf (Store.events r.2) = false /\
   Store.writes r.2 = S (Store.writes s) /\
   exists text rest,
     Store.file r.2 = Some text /\ rest <> "" /\
     Json.dumps (Store.to_json (Store.events r.2)) = text +:+ rest).
Proof.
  intros r. subst r.
  destruct (event_column_cases pressed date event_title event_description s)
    as [(_ & Ht & Hrun)|[(j & m & l & _ & Hym & Hd & Hj & Hrun)|(Ho & He & Hf & Hw & _)]].
  - rewrite Hrun, add_event_pressed_run by exact Ht.
    set (s1 := Store.State _ _ _ _ _). set (msg := Store.Success _).
    destruct (finish_saves msg s1) as [H|H]; [left | right; right]; exact H.
  - rewrite Hrun, (delete_event_pressed_run date j s m l Hym Hd Hj).
    set (s1 := Store.State _ _ _ _ _). set (msg := Store.Success _).
    destruct (finish_saves msg s1) as [H|H]; [left | right; right]; exact H.
  - right. left. split; [|auto]. destruct Ho as [-> | ->]; discriminate.
Qed.

(** X13: what a run of the column does to the file.  Either it ends with
    a rerun, having written the file once, with the text of the document
    then in memory; or it leaves the document, the file and the count of
    writes as they were and does not rerun; or the write of the changed
    document raises [UnicodeEncodeError]: then a text of that document is
    not well-formed, the file has been opened for writing once and holds
    the text only up to a piece that could not be encoded, and the script
    is not rerun. *)
Theorem X13_what_a_run_does_to_the_file (pressed : option Store.button)
    (date event_title event_description : string) (s : Store.state) :
  let r := Store.event_column isoformat fromisoformat pressed date event_title
             event_description s in
  (r.1 = Store.Raise Store.RerunException /\
   Store.file r.2 = Some (Json.dumps (Store.to_json (Store.events r.2))) /\
   Store.writes r.2 = S (Store.writes s)) \/
  (r.1 <> Store.Raise Store.RerunException /\
   Store.events r.2 = Store.events s /\
   Store.file r.2 = Store.file s /\
   Store.writes r.2 = Store.writes s) \/
  (r.1 = Store.Raise Store.UnicodeEncodeError /\
   Store.document_wf (Store.events r.2) = false /\
   Store.writes r.2 = S (Store.writes s) /\
   exists text rest,
     Store.file r.2 = Some text /\ rest <> "" /\
     Json.dumps (Store.to_json (Store.events r.2)) = text +:+ rest).
Proof.
  intros r. subst r.
  destruct (event_column_cases pressed date event_title event_description s)
    as [(_ & Ht & Hrun)|[(j & m & l & _ & Hym & Hd & Hj & Hrun)|(Ho & He & Hf & Hw & _)]].
  - rewrite Hrun, add_event_pressed_run by exact Ht.
    set (s1 := Store.State _ _ _ _ _). set (msg := Store.Success _).
    destruct (finish_saves msg s1) as [H|H]; [left | right; right]; exact H.
  - rewrite Hrun, (delete_event_pressed_run date j s m l Hym Hd Hj).
    set (s1 := Store.State _ _ _ _ _). set (msg := Store.Success _).
    destruct (finish_saves msg s1) as [H|H]; [left | right; right]; exact H.
  - right. left. split; [|auto]. destruct Ho as [-> | ->]; discriminate.
Qed.

(** X14: the file follows the document: from a state in which the file
    holds the text of the document in memory, every sequence of runs
    leads to a state in which it does, when the texts of the document
    then in memory are well-formed (a document with another text is never
    written whole). *)
Theorem X14_file_follows_document (s s' : Store.state) :
  Store.file s = Some (Json.dumps (Store.to_json (Store.events s))) ->
  Store.produced isoformat fromisoformat s s' ->
  Store.document_wf (Store.events s') = true ->
  Store.file s' = Some (Json.dumps (Store.to_json (Store.events s'))).
Proof.
  intros Hs Hprod. induction Hprod as [|s1 pressed date t ds o s2 _ IH Hrun].
  - intros _. exact Hs.
  - pose proof (event_column_saves pressed date t ds s1) as H.
    rewrite Hrun in H. simpl in H.
    destruct H as [(_ & Hf & _)|[(_ & He & Hf & _)|(_ & Hwf & _)]].
    + intros _. exact Hf.
    + rewrite Hf, He. exact IH.
    + congruence.
Qed.

(** X15: only the buttons of the selected date act.  The column is
    reached in a run that no month button started (lines 63 and 74 end
    such a run before); when then neither the add button of the selected
    date nor one of its delete buttons is pressed (nothing is, or a button
    of another date), the run changes neither the document nor the file
    nor the clock, and does not rerun. *)
Theorem X15_other_buttons_do_nothing (pressed : option Store.button)
    (date event_title event_description : string) (s : Store.state) :
  pressed <> Some Store.PrevMonth -> pressed <> Some Store.NextMonth ->
  pressed <> Some (Store.AddEvent date) ->
  (forall i, pressed <> Some (Store.DeleteEvent date i)) ->
  let r := Store.event_column isoformat fromisoformat pressed date event_title
             event_description s in
  (r.1 = Store.Ret tt \/ r.1 = Store.Raise Store.ValueError) /\
  Store.events r.2 = Store.events s /\ Store.file r.2 = Store.file s /\
  Store.writes r.2 = Store.writes s /\ Store.clock r.2 = Store.clock s.
Proof.
  intros _ _ Hadd Hdel r. subst r.
  destruct (event_column_cases pressed date event_title event_description s)
    as [(Hp & _)|[(j & m & l & Hp & _)|Hidle]].
  - contradiction.
  - destruct (Hdel j Hp).
  - exact Hidle.
Qed.

Lemma document_wf_deleted (d : Store.document) (date : string) (m : Store.month)
    (l : list Store.event) (i : nat) :
  Store.document_wf d = true ->
  d !! Text.take 7 date = Some m -> m !! date = Some l ->
  let l' := delete i l in
  let m' := match l' with [] => delete date m | _ :: _ => <[date := l']> m end in
  Store.document_wf
    (if bool_decide (m' = ∅) then delete (Text.take 7 date) d
     else <[Text.take 7 date := m']> d) = true.
Proof.
  intros Hwf Hym Hd l' m'. rewrite document_wf_lookup in Hwf.
  destruct (Hwf _ _ Hym) as [Hkey Hm]. rewrite month_wf_lookup in Hm.
  destruct (Hm _ _ Hd) as [Hdate Hl].
  assert (Hl' : forallb Store.event_wf l' = true).
  { apply forallb_forall. intros x Hx. rewrite forallb_forall in Hl. apply Hl.
    apply list_elem_of_In. apply list_elem_of_In in Hx.
    eapply list_elem_of_delete_inv, Hx. }
  assert (Hm' : Store.month_wf m' = true).
  { apply month_wf_lookup. intros k l1 Hk. subst m'. destruct l' as [|x l2] eqn:El'.
    - apply lookup_delete_Some in Hk as [_ Hk]. eapply Hm, Hk.
    - destruct (decide (date = k)) as [<-|Hne].
      + rewrite lookup_insert_eq in Hk. injection Hk as <-. auto.
      + rewrite lookup_insert_ne in Hk by done. eapply Hm, Hk. }
  apply document_wf_lookup. intros k m1 Hk. case_bool_decide.
  - apply lookup_delete_Some in Hk as [_ Hk]. eapply Hwf, Hk.
  - destruct (decide (Text.take 7 date = k)) as [<-|Hne].
    + rewrite lookup_insert_eq in Hk. injection Hk as <-. auto.
    + rewrite lookup_insert_ne in Hk by done. eapply Hwf, Hk.
Qed.

(** X17: a deleted event stays deleted: the run that the deletion starts
    loads from the file a document in which the list of the date is the
    list of before without the event (for a document whose texts are
    Unicode text). *)
Theorem X17_deleted_event_is_gone_after_rerun
    (date event_title event_description : string) (i : nat) (s : Store.state) :
  date <> "" ->
  Store.document_wf (Store.events s) = true ->
  (i < length (Store.list_events (Store.events s) date))%nat ->
  Forall (fun e => is_Some (fromisoformat (Store.timestamp e)))
    (take (S i) (Store.list_events (Store.events s) date)) ->
  let s' := (Store.event_column isoformat fromisoformat (Some (Store.DeleteEvent date i))
               date event_title event_description s).2 in
  exists v d',
    Store.load_events s' = (Store.Ret v, s') /\
    Store.as_document v = Some d' /\
    Store.list_events d' date =
      take i (Store.list_events (Store.events s) date) ++
      drop (S i) (Store.list_events (Store.events s) date).
Proof.
  intros Hdate Hwf Hi Hshow s'. subst s'.
  unfold Store.list_events in Hi, Hshow |- * at 2 3.
  destruct (Store.events s !! Text.take 7 date) as [m|] eqn:Hym; [|simpl in Hi; lia].
  destruct (m !! date) as [l|] eqn:Hd; [|simpl in Hi; lia].
  rewrite (event_column_delete date _ _ i s m l Hdate Hym Hd Hi Hshow).
  rewrite (delete_event_pressed_run date i s m l Hym Hd Hi).
  set (d' := if bool_decide _ then _ else _).
  assert (Hwf' : Store.document_wf d' = true)
    by apply (document_wf_deleted (Store.events s) date m l i Hwf Hym Hd).
  rewrite finish_ok by exact Hwf'. simpl.
  exists (Store.to_json d'), d'. split; [|split].
  - apply (load_events_parsed _ (Json.dumps (Store.to_json d'))); [reflexivity | |].
    + apply utf8_valid_dumps_at, texts_valid_to_json, Hwf'.
    + apply loads_dumps, plain_to_json.
  - apply as_document_to_json.
  - subst d'. rewrite (list_events_deleted (Store.events s) date m l i Hym Hd).
    apply delete_take_drop.
Qed.

End ColumnFacts.

(** X16: an added event is there after the rerun: the run that the
    addition starts loads from the file a document in which the list of
    the date ends with the new event (for a document and entries that are
    Unicode text, dates being ASCII). *)
Theorem X16_added_event_is_listed_after_rerun (isoformat : nat -> string)
    (date event_title event_description : string) (s : Store.state) :
  event_title <> "" ->
  Store.document_wf (Store.events s) = true ->
  Utf8.valid (Text.take 7 date) = true -> Utf8.valid date = true ->
  Utf8.valid event_title = true -> Utf8.valid event_description = true ->
  Utf8.valid (isoformat (Store.clock s)) = true ->
  let s' := (Store.add_event_pressed isoformat date event_title event_description s).2 in
  exists v d',
    Store.load_events s' = (Store.Ret v, s') /\
    Store.as_document v = Some d' /\
    Store.list_events d' date =
    Store.list_events (Store.events s) date ++
      [Store.Event event_title event_description (isoformat (Store.clock s))].
Proof.
  intros Ht Hwf Hym Hdate Hvt Hvd Hvts s'. subst s'.
  rewrite add_event_pressed_run by exact Ht.
  set (d' := <[_ := _]> (Store.events s)).
  assert (Hwf' : Store.document_wf d' = true).
  { subst d'. apply document_wf_added; try assumption.
    unfold Store.event_wf. simpl. rewrite Hvt, Hvd, Hvts. reflexivity. }
  rewrite finish_ok by exact Hwf'. simpl.
  exists (Store.to_json d'), d'. split; [|split].
  - apply (load_events_parsed _ (Json.dumps (Store.to_json d'))); [reflexivity | |].
    + apply utf8_valid_dumps_at, texts_valid_to_json, Hwf'.
    + apply loads_dumps, plain_to_json.
  - apply as_document_to_json.
  - subst d'. rewrite (list_events_default (Store.events s)).
    unfold Store.list_events. rewrite lookup_insert_eq, lookup_insert_eq. reflexivity.
Qed.

(** ** The further properties at the sample session *)

Lemma X9_delete_removes_that_event_witness :
  let r := Store.event_column Sample.isoformat Sample.fromisoformat
             (Some (Store.DeleteEvent "2024-03-15" 0)) "2024-03-15" "" ""
             Sample.with_meeting in
  Store.list_events (Store.events r.2) "2024-03-15" =
    take 0 (Store.list_events (Store.events Sample.with_meeting) "2024-03-15") ++
    drop 1 (Store.list_events (Store.events Sample.with_meeting) "2024-03-15") /\
  Store.writes r.2 = 2%nat /\
  r.1 = Store.Raise Store.RerunException /\
  Store.file r.2 = Some (Json.dumps (Store.to_json (Store.events r.2))).
Proof.
  destruct (X9_delete_removes_that_event Sample.isoformat Sample.fromisoformat
              "2024-03-15" "" "" 0 Sample.with_meeting) as (H1 & H2 & H3).
  - discriminate.
  - vm_compute. lia.
  - repeat constructor. exists 0%nat. reflexivity.
  - split; [exact H1|]. split; [exact H2|]. apply H3. vm_compute. reflexivity.
Defined.

Lemma X11_unreadable_timestamp_blocks_delete_witness :
  Store.event_column Sample.isoformat Sample.fromisoformat
    (Some (Store.DeleteEvent "2024-03-15" 0)) "2024-03-15" "" "" Sample.undated =
  (Store.Raise Store.ValueError, Sample.undated).
Proof.
  apply (X11_unreadable_timestamp_blocks_delete Sample.isoformat Sample.fromisoformat
           "2024-03-15" "" "" 0 0 (Store.Event "会議" "" "きのう") Sample.undated).
  - discriminate.
  - reflexivity.
  - reflexivity.
  - lia.
Defined.

Lemma X12_add_then_delete_restores_witness :
  Store.events
    (Store.event_column Sample.isoformat Sample.fromisoformat
       (Some (Store.DeleteEvent "2024-03-15"
                (length (Store.list_events (Store.events Sample.fresh) "2024-03-15"))))
       "2024-03-15" "" ""
       (Store.add_event_pressed Sample.isoformat "2024-03-15" "会議" "" Sample.fresh).2).2 =
  Store.events Sample.fresh.
Proof.
  apply (X12_add_then_delete_restores Sample.isoformat Sample.fromisoformat
           "2024-03-15" "会議" "" "" "" Sample.fresh).
  - apply pruned_empty.
  - discriminate.
  - discriminate.
  - constructor.
  - exists 0%nat. reflexivity.
Defined.

Lemma X14_file_follows_document_witness :
  Store.file
    (Store.event_column Sample.isoformat Sample.fromisoformat
       (Some (Store.AddEvent "2024-03-16")) "2024-03-16" "昼食" "" Sample.with_meeting).2 =
  Some (Json.dumps (Store.to_json (Store.events
    (Store.event_column Sample.isoformat Sample.fromisoformat
       (Some (Store.AddEvent "2024-03-16")) "2024-03-16" "昼食" "" Sample.with_meeting).2))).
Proof.
  apply (X14_file_follows_document Sample.isoformat Sample.fromisoformat
           Sample.with_meeting).
  - reflexivity.
  - eapply Store.produced_run; [apply Store.produced_start | apply surjective_pairing].
  - vm_compute. reflexivity.
Defined.

(** The file follows the document only as far as its texts can be
    encoded: an addition whose title cannot changes the document, and the
    write that follows leaves the file cut before the title. *)
Example sample_unsaved_addition :
  let s := Store.State ∅ (Some "{}") 1 900 [] in
  let r := Store.event_column Sample.isoformat Sample.fromisoformat
             (Some (Store.AddEvent "2024-03-15")) "2024-03-15"
             (String "237" (String "160" (String "128" ""))) "メモ" s in
  Store.file s = Some (Json.dumps (Store.to_json (Store.events s))) /\
  r.1 = Store.Raise Store.UnicodeEncodeError /\
  Store.events r.2 =
    {[ "2024-03" := {[ "2024-03-15" :=
         [Store.Event (String "237" (String "160" (String "128" ""))) "メモ"
            "2024-03-15T00:15:00"] ]} ]} /\
  Store.file r.2 =
    Some (String "{" (String "010" ("    " +:+ Json.quote "2024-03" +:+ ": {" +:+
          String "010" ("        " +:+ Json.quote "2024-03-15" +:+ ": [" +:+
          String "010" ("            {" +:+
          String "010" ("                " +:+ Json.quote "title" +:+ ": ")))))) /\
  Store.file r.2 <> Some (Json.dumps (Store.to_json (Store.events r.2))) /\
  Store.writes r.2 = 2%nat /\
  Store.shown r.2 = [].
Proof.
  vm_compute. repeat split; try reflexivity. discriminate.
Qed.

Lemma X15_other_buttons_do_nothing_witness :
  Store.events
    (Store.event_column Sample.isoformat Sample.fromisoformat
       (Some (Store.DeleteEvent "2024-03-16" 0)) "2024-03-15" "会議" ""
       Sample.with_meeting).2 =
  Store.events Sample.with_meeting.
Proof.
  apply (X15_other_buttons_do_nothing Sample.isoformat Sample.fromisoformat
           (Some (Store.DeleteEvent "2024-03-16" 0)) "2024-03-15" "会議" ""
           Sample.with_meeting).
  - discriminate.
  - discriminate.
  - discriminate.
  - intros i. discriminate.
Defined.

Lemma X16_added_event_is_listed_after_rerun_witness :
  exists v d',
    Store.load_events
      (Store.add_event_pressed Sample.isoformat "2024-03-15" "昼食" "そば"
         Sample.with_meeting).2 =
      (Store.Ret v,
       (Store.add_event_pressed Sample.isoformat "2024-03-15" "昼食" "そば"
          Sample.with_meeting).2) /\
    Store.as_document v = Some d' /\
    Store.list_events d' "2024-03-15" =
    Store.list_events (Store.events Sample.with_meeting) "2024-03-15" ++
      [Store.Event "昼食" "そば" (Sample.isoformat (Store.clock Sample.with_meeting))].
Proof.
  apply (X16_added_event_is_listed_after_rerun Sample.isoformat "2024-03-15" "昼食" "そば"
           Sample.with_meeting); try reflexivity.
  discriminate.
Defined.

Lemma X17_deleted_event_is_gone_after_rerun_witness :
  exists v d',
    Store.load_events
      (Store.event_column Sample.isoformat Sample.fromisoformat
         (Some (Store.DeleteEvent "2024-03-15" 0)) "2024-03-15" "" ""
         Sample.with_meeting).2 =
      (Store.Ret v,
       (Store.event_column Sample.isoformat Sample.fromisoformat
          (Some (Store.DeleteEvent "2024-03-15" 0)) "2024-03-15" "" ""
          Sample.with_meeting).2) /\
    Store.as_document v = Some d' /\
    Store.list_events d' "2024-03-15" =
      take 0 (Store.list_events (Store.events Sample.with_meeting) "2024-03-15") ++
      drop 1 (Store.list_events (Store.events Sample.with_meeting) "2024-03-15").
Proof.
  apply (X17_deleted_event_is_gone_after_rerun Sample.isoformat Sample.fromisoformat
           "2024-03-15" "" "" 0 Sample.with_meeting).
  - discriminate.
  - reflexivity.
  - vm_compute. lia.
  - repeat constructor. exists 0%nat. reflexivity.
Defined.

(** ** The selected date and its month (lines 94-103, 118) *)

Lemma digit_inj (a b : Z) :
  Store.digit a = Store.digit b -> a mod 10 = b mod 10.
Proof.
  intros H. unfold Store.digit in H.
  pose proof (Z.mod_pos_bound a 10 ltac:(lia)).
  pose proof (Z.mod_pos_bound b 10 ltac:(lia)).
  apply (f_equal N_of_ascii) in H.
  rewrite !N_ascii_embedding in H by lia. lia.
Qed.

Lemma four_digits_inj (y y' : Z) :
  0 <= y < 10000 -> 0 <= y' < 10000 ->
  (y / 1000) mod 10 = (y' / 1000) mod 10 ->
  (y / 100) mod 10 = (y' / 100) mod 10 ->
  (y / 10) mod 10 = (y' / 10) mod 10 ->
  y mod 10 = y' mod 10 -> y = y'.
Proof. intros. Z.to_euclidean_division_equations. lia. Qed.

Lemma two_digits_inj (m m' : Z) :
  0 <= m < 100 -> 0 <= m' < 100 ->
  (m / 10) mod 10 = (m' / 10) mod 10 -> m mod 10 = m' mod 10 -> m = m'.
Proof. intros. Z.to_euclidean_division_equations. lia. Qed.

(** X18: the month key of a date is the text of its year and month: the
    dates of one month of one year have the same key, whatever the day,
    and dates of different months or years have different keys. *)
Theorem X18_month_key_groups_by_month (y m d y' m' d' : Z) :
  Store.in_calendar y m d -> Store.in_calendar y' m' d' ->
  (Store.selected_year_month y m d = Store.selected_year_month y' m' d' <->
   y = y' /\ m = m').
Proof.
  intros (Hy & Hm & Hd) (Hy' & Hm' & Hd'). split.
  - unfold Store.selected_year_month, Store.selected_date_str.
    intros H. vm_compute Text.take in H. cbv beta iota in H.
    injection H as H3 H2 H1 H0 M1 M0.
    apply digit_inj in H3, H2, H1, H0, M1, M0. split.
    + apply four_digits_inj; assumption || lia.
    + apply two_digits_inj; assumption || lia.
  - intros [-> ->]. reflexivity.
Qed.

Lemma X18_month_key_groups_by_month_witness :
  Store.selected_year_month 2024 3 15 = Store.selected_year_month 2024 3 31 <->
  2024 = 2024 /\ 3 = 3.
Proof.
  apply (X18_month_key_groups_by_month 2024 3 15 2024 3 31);
    unfold Store.in_calendar; lia.
Defined.

(** X19: two dates have the same text only if they are the same date,
    and the text of a date has ten characters, all ASCII: the events of
    different dates never share a list, and the text is Unicode text. *)
Theorem X19_date_key_tells_date (y m d y' m' d' : Z) :
  Store.in_calendar y m d -> Store.in_calendar y' m' d' ->
  (Store.selected_date_str y m d = Store.selected_date_str y' m' d' ->
   y = y' /\ m = m' /\ d = d') /\
  String.length (Store.selected_date_str y m d) = 10%nat /\
  Utf8.valid (Store.selected_date_str y m d) = true /\
  Utf8.valid (Store.selected_year_month y m d) = true.
Proof.
  intros (Hy & Hm & Hd) (Hy' & Hm' & Hd').
  assert (Hascii : forall n, (N_of_ascii (Store.digit n) < 128)%N).
  { intros n. unfold Store.digit.
    pose proof (Z.mod_pos_bound n 10 ltac:(lia)).
    rewrite N_ascii_embedding by lia. lia. }
  split; [|split; [reflexivity|split]].
  - unfold Store.selected_date_str. intros H.
    injection H as H3 H2 H1 H0 M1 M0 D1 D0.
    apply digit_inj in H3, H2, H1, H0, M1, M0, D1, D0. repeat split.
    + apply four_digits_inj; assumption || lia.
    + apply two_digits_inj; assumption || lia.
    + apply two_digits_inj; assumption || lia.
  - unfold Store.selected_date_str.
    repeat (apply utf8_valid_cons_ascii; [apply Hascii || reflexivity|]). reflexivity.
  - unfold Store.selected_year_month, Store.selected_date_str.
    vm_compute Text.take. cbv beta iota.
    repeat (apply utf8_valid_cons_ascii; [apply Hascii || reflexivity|]). reflexivity.
Qed.

Lemma X19_date_key_tells_date_witness :
  String.length (Store.selected_date_str 2024 3 15) = 10%nat /\
  Store.selected_date_str 2024 3 15 = "2024-03-15" /\
  Store.selected_year_month 2024 3 15 = "2024-03".
Proof.
  destruct (X19_date_key_tells_date 2024 3 15 2024 3 15) as (_ & Hlen & _);
    [unfold Store.in_calendar; lia | unfold Store.in_calendar; lia |].
  split; [exact Hlen|]. split; reflexivity.
Defined.

(** ** The list shown and the order of additions (lines 128-187) *)

Section ListFacts.

Variable isoformat : nat -> string.
Variable fromisoformat : string -> option nat.

(** X20: the message that the date has no events is shown exactly when
    its list is empty, be it that the month or the date has no entry or
    that the entry is an empty list; with events in the list, the run
    shows no message. *)
Theorem X20_empty_state_message (date event_title event_description : string)
    (s : Store.state) :
  date <> "" ->
  let r := Store.event_column isoformat fromisoformat None date event_title
             event_description s in
  (Store.list_events (Store.events s) date = [] ->
   r = (Store.Ret tt,
        Store.State (Store.events s) (Store.file s) (Store.writes s) (Store.clock s)
          (Store.Info "この日付にはイベントがありません。" :: Store.shown s))) /\
  (Store.list_events (Store.events s) date <> [] -> r.2 = s).
Proof.
  intros Hdate r.
  assert (Hr : r = Store.event_list fromisoformat None date s).
  { subst r. unfold Store.event_column.
    destruct date as [|ch date0]; [congruence|]. reflexivity. }
  rewrite Hr, event_list_idle by (intros j _; discriminate).
  destruct (Store.list_events (Store.events s) date) as [|e l]; split;
    congruence || reflexivity.
Qed.

(** X21: events are listed in the order in which they were added: after
    two additions to a date its list is the list of before, then the
    first event, then the second, each with the time of its addition. *)
Theorem X21_additions_are_listed_in_order (date title1 description1 title2 description2 : string)
    (s : Store.state) :
  title1 <> "" -> title2 <> "" ->
  let s1 := (Store.add_event_pressed isoformat date title1 description1 s).2 in
  let s2 := (Store.add_event_pressed isoformat date title2 description2 s1).2 in
  Store.list_events (Store.events s2) date =
  Store.list_events (Store.events s) date ++
    [Store.Event title1 description1 (isoformat (Store.clock s));
     Store.Event title2 description2 (isoformat (S (Store.clock s)))].
Proof.
  intros H1 H2 s1 s2. subst s2 s1.
  rewrite (add_event_pressed_run isoformat date title2 description2 _ H2).
  rewrite finish_events. simpl Store.events.
  rewrite (add_event_pressed_run isoformat date title1 description1 s H1).
  rewrite !finish_events, !finish_clock.
  simpl. rewrite (list_events_default (Store.events s)).
  unfold Store.list_events.
  rewrite !lookup_insert_eq. simpl. rewrite !lookup_insert_eq. simpl.
  rewrite <- app_assoc. reflexivity.
Qed.

End ListFacts.

Lemma X20_empty_state_message_witness :
  Store.event_column Sample.isoformat Sample.fromisoformat None "2024-03-16" "" ""
    Sample.with_meeting =
  (Store.Ret tt,
   Store.State (Store.events Sample.with_meeting) (Store.file Sample.with_meeting)
     (Store.writes Sample.with_meeting) (Store.clock Sample.with_meeting)
     (Store.Info "この日付にはイベントがありません。" :: Store.shown Sample.with_meeting)).
Proof.
  apply (X20_empty_state_message Sample.isoformat Sample.fromisoformat "2024-03-16" "" ""
           Sample.with_meeting); [discriminate | reflexivity].
Defined.

Lemma X21_additions_are_listed_in_order_witness :
  Store.list_events
    (Store.events
       (Store.add_event_pressed Sample.isoformat "2024-03-15" "夕食" ""
          (Store.add_event_pressed Sample.isoformat "2024-03-15" "昼食" ""
             Sample.with_meeting).2).2) "2024-03-15" =
  Store.list_events (Store.events Sample.with_meeting) "2024-03-15" ++
    [Store.Event "昼食" "" (Sample.isoformat (Store.clock Sample.with_meeting));
     Store.Event "夕食" "" (Sample.isoformat (S (Store.clock Sample.with_meeting)))].
Proof.
  apply (X21_additions_are_listed_in_order Sample.isoformat "2024-03-15" "昼食" "" "夕食" ""
           Sample.with_meeting); discriminate.
Defined.
